(** * tgify-i18n: locale resolution, resource trees, template rendering and
      pluralization

    A shallow embedding of the TypeScript sources
    - [context.ts]   (class [I18nContext]),
    - [pluralize.ts] (function [pluralize]),
    - [utils/compile.ts] (functions [escape] and [compile]),
    - the main module (class [I18n] and its helpers),
    followed by the properties the specification states about them.

    Modelling conventions.
    - JavaScript strings are modelled as [string] (sequences of 8-bit
      characters); [toLowerCase] and [trim] act on the ASCII letters and the
      ASCII white space.
    - Numbers are integers ([Z]); the one quotient the sources compute,
      in [translationProgress], is taken in the rationals.
    - A JavaScript object is an association list in insertion order, read by
      [Obj.get] (own properties only: properties inherited from a prototype
      are not modelled) and written by [Obj.set]. JavaScript enumerates the
      keys that are array indices before the others; this reordering is
      not modelled, and no property below depends on the order of keys.
    - A thrown exception is a value of [JsError]; a computation that may
      throw returns a [completion].
    - Mutable fields are threaded explicitly: an operation that writes to
      [this] returns the updated record.
    - The host's [vm] module is a parameter [vm : Vm] of the functions that
      run a script. *)

From Stdlib Require Import String Ascii List ZArith QArith Bool Lia.
From Stdlib Require Import DecimalString.
Import ListNotations.
Close Scope Q_scope.
Local Open Scope Z_scope.
Local Open Scope nat_scope.
Local Open Scope string_scope.
Local Open Scope list_scope.

Set Implicit Arguments.
Set Warnings "-register-all".

(* ================================================================= *)
(** ** JavaScript strings *)

Module JsString.

(** [c] is one of the ASCII white-space characters removed by
    [String.prototype.trim]: TAB, LF, VT, FF, CR and SPACE. *)
Definition isWhiteSpace (c : ascii) : bool :=
  let n := nat_of_ascii c in
  (((9 <=? n) && (n <=? 13)) || (n =? 32))%nat.

Definition lowerChar (c : ascii) : ascii :=
  let n := nat_of_ascii c in
  if ((65 <=? n) && (n <=? 90))%nat then ascii_of_nat (n + 32) else c.

Fixpoint map (f : ascii -> ascii) (s : string) : string :=
  match s with
  | EmptyString => EmptyString
  | String c r => String (f c) (map f r)
  end.

(** [s.toLowerCase()] *)
Definition toLowerCase (s : string) : string := map lowerChar s.

Fixpoint trimStart (s : string) : string :=
  match s with
  | EmptyString => EmptyString
  | String c r => if isWhiteSpace c then trimStart r else s
  end.

Fixpoint trimEnd (s : string) : string :=
  match s with
  | EmptyString => EmptyString
  | String c r =>
      match trimEnd r with
      | EmptyString => if isWhiteSpace c then EmptyString else String c EmptyString
      | r' => String c r'
      end
  end.

(** [s.trim()] *)
Definition trim (s : string) : string := trimEnd (trimStart s).

Definition hyphenate (c : ascii) : ascii :=
  if Ascii.eqb c "_" then "-"%char else c.

(** [s.replace(/_/g, "-")] *)
Definition replaceUnderscores (s : string) : string := map hyphenate s.

(** A string that does not start with white space. *)
Definition startsClean (s : string) : Prop :=
  match s with
  | EmptyString => True
  | String c _ => isWhiteSpace c = false
  end.

(** [s.replace(/`/gm, "\\`")]: every backtick gets a backslash in front. *)
Fixpoint escapeBackticks (s : string) : string :=
  match s with
  | EmptyString => EmptyString
  | String c r =>
      if Ascii.eqb c "`"
      then String "\" (String "`" (escapeBackticks r))
      else String c (escapeBackticks r)
  end.

(** [s.split(sep)] for a one-character separator: never empty. *)
Fixpoint split (sep : ascii) (s : string) : list string :=
  match s with
  | EmptyString => [EmptyString]
  | String c r =>
      if Ascii.eqb c sep then EmptyString :: split sep r
      else match split sep r with
           | [] => [String c EmptyString]
           | seg :: segs => String c seg :: segs
           end
  end.

(** [s.split(sep)[0]] *)
Definition firstSegment (sep : ascii) (s : string) : string :=
  hd EmptyString (split sep s).

(** [s.includes(needle)] *)
Fixpoint includes (needle s : string) : bool :=
  if String.prefix needle s then true
  else match s with
       | EmptyString => false
       | String _ r => includes needle r
       end.

(** [!s] for a string: only the empty string is falsy. *)
Definition isEmpty (s : string) : bool :=
  match s with EmptyString => true | _ => false end.

(** [String(n)] for an integer [n]. *)
Definition ofZ (n : Z) : string := NilZero.string_of_int (Z.to_int n).

Definition ofNat (n : nat) : string := ofZ (Z.of_nat n).

End JsString.

(* ================================================================= *)
(** ** JavaScript objects, errors and completions *)

(** An [Error] object: its [name] and its [message]. *)
Record JsError : Type := mkJsError { errName : string; errMessage : string }.

(** [new Error(msg)] *)
Definition Error (msg : string) : JsError := mkJsError "Error" msg.

(** [err.toString()], as [Error.prototype.toString] defines it. *)
Definition errToString (err : JsError) : string :=
  if JsString.isEmpty (errName err) then errMessage err
  else if JsString.isEmpty (errMessage err) then errName err
  else errName err ++ ": " ++ errMessage err.

(** The outcome of a call: a returned value or a thrown error. *)
Inductive completion (A : Type) : Type :=
| Return (a : A)
| Throw (err : JsError).
Arguments Return {A} a.
Arguments Throw {A} err.

(** Own properties of an object (also the entries of a [Map]), in insertion
    order. *)
Module Obj.
Section Props.
Variable A : Type.

Definition t : Type := list (string * A).

(** [o[k]] when [k in o] *)
Fixpoint get (k : string) (o : t) : option A :=
  match o with
  | [] => None
  | (k', v) :: rest => if String.eqb k k' then Some v else get k rest
  end.

(** [k in o] *)
Definition has (k : string) (o : t) : bool :=
  match get k o with Some _ => true | None => false end.

(** [o[k] = v]: an existing property keeps its place, a new one goes
    last. *)
Fixpoint set (k : string) (v : A) (o : t) : t :=
  match o with
  | [] => [(k, v)]
  | (k', v') :: rest =>
      if String.eqb k k' then (k', v) :: rest else (k', v') :: set k v rest
  end.

(** [delete o[k]] *)
Fixpoint delete (k : string) (o : t) : t :=
  match o with
  | [] => []
  | (k', v') :: rest =>
      if String.eqb k k' then delete k rest else (k', v') :: delete k rest
  end.

(** [Object.keys(o)] *)
Definition keys (o : t) : list string := List.map fst o.

(** [Object.assign(target, source)], also the spread [{...target, ...source}] *)
Definition assign (target source : t) : t :=
  fold_left (fun out kv => set (fst kv) (snd kv) out) source target.
End Props.
End Obj.

(** Values found in a template-data context. A function value records the
    receiver it was bound to, if any. *)
Inductive receiver : Type :=
| Unbound
| BoundTo (languageCode shortLanguageCode : option string).

Inductive datum : Type :=
| DUndefined
| DNull
| DBool (b : bool)
| DNum (n : Z)
| DStr (s : string)
| DFunction (name : string) (this : receiver)
| DObject (fields : list (string * datum)).

Definition TemplateData : Type := Obj.t datum.

(** [v.bind(self)]: a function that is already bound keeps its receiver. *)
Definition bind (self : receiver) (v : datum) : datum :=
  match v with
  | DFunction name Unbound => DFunction name self
  | _ => v
  end.

(** A template function is one of the two closures the sources create:
    - [ConstFn s] is [() => s], returning the captured string [s]
      ([() => literal] in [compileTemplates], [() => resourceKey] in [t]);
    - [ScriptFn template] is the closure returned by [compile(template)]. *)
Inductive TemplateFn : Type :=
| ConstFn (captured : string)
| ScriptFn (template : string).

(** A resource value: what parsed JSON or YAML holds, and what a compiled
    resource tree holds. *)
Inductive value : Type :=
| VUndefined
| VNull
| VBool (b : bool)
| VNum (n : Z)
| VStr (s : string)
| VFn (f : TemplateFn)
| VArr (items : list value)
| VObj (props : list (string * value)).

Definition ResourceTree : Type := Obj.t value.
Definition Repository : Type := Obj.t ResourceTree.

(** [!!v] *)
Definition truthy (v : value) : bool :=
  match v with
  | VUndefined | VNull => false
  | VBool b => b
  | VNum n => negb (Z.eqb n 0)
  | VStr s => negb (JsString.isEmpty s)
  | VFn _ | VArr _ | VObj _ => true
  end.

(** [v == null], the test behind [??] *)
Definition nullish (v : value) : bool :=
  match v with VUndefined | VNull => true | _ => false end.

(** [typeof v === "object"] for a value that is not [null] *)
Definition typeofObject (v : value) : bool :=
  match v with VObj _ | VArr _ => true | _ => false end.

(** [a ?? b] *)
Definition coalesce (a b : value) : value := if nullish a then b else a.

(** [!!flag] for an optional boolean option *)
Definition isSet (flag : option bool) : bool :=
  match flag with Some true => true | _ => false end.

(** A string or [undefined] used as a property key or inside a template
    literal. *)
Definition keyOf (s : option string) : string :=
  match s with Some s => s | None => "undefined" end.

(* ================================================================= *)
(** ** utils/compile.ts: the template compiler *)

(** [vm.RunningScriptInNewContextOptions]: only [timeout] is read here. *)
Record RunningScriptOptions : Type := { timeout : option Z }.

(** The host's [vm] module. [runInNewContext vm script context options]
    is [new vm.Script(script).runInNewContext(context, options)]: the script
    either evaluates to a string or fails; exceeding [timeout] is one of the
    failures. A failure is an [Error] object of the sandbox. Constructing
    the script is taken to succeed: a template that is not a well-formed
    template literal is outside the model. *)
Definition Vm : Type :=
  string -> TemplateData -> RunningScriptOptions -> string + JsError.

Module Compile.

(** [escape(template)]: the template between backticks, its own backticks
    escaped. *)
Definition escape (template : string) : string :=
  "`" ++ JsString.escapeBackticks template ++ "`".

(** [Object.assign({ timeout: 500 }, ops)] *)
Definition mergeOptions (ops : option RunningScriptOptions) : RunningScriptOptions :=
  match ops with
  | Some {| timeout := Some ms |} => {| timeout := Some ms |}
  | _ => {| timeout := Some 500%Z |}
  end.

(** [Object.assign({}, defaultContext, context)] *)
Definition mergeContext (defaultContext : option TemplateData) (context : TemplateData)
  : TemplateData :=
  Obj.assign
    (Obj.assign [] (match defaultContext with Some d => d | None => [] end))
    context.

(** [compile(template, defaultContext, ops)]: the returned renderer. *)
Definition compile (vm : Vm) (template : string)
    (defaultContext : option TemplateData) (ops : option RunningScriptOptions)
  : TemplateData -> completion string :=
  let options := mergeOptions ops in
  let script := escape template in
  fun context =>
    match vm script (mergeContext defaultContext context) options with
    | inl rendered => Return rendered
    | inr err => Throw (Error (errToString err))
    end.

(** Calling a template function with a context. *)
Definition call (vm : Vm) (f : TemplateFn) (ctx : TemplateData) : completion string :=
  match f with
  | ConstFn captured => Return captured
  | ScriptFn template => compile vm template None None ctx
  end.

End Compile.

(* ================================================================= *)
(** ** The main module: helpers *)

(** [normalizeLocale(code)] returns [{ full, base }]. *)
Record NormalizedLocale : Type := { full : string; base : string }.

Definition normalizeLocale (code : string) : NormalizedLocale :=
  let full := JsString.replaceUnderscores (JsString.toLowerCase (JsString.trim code)) in
  let base := JsString.firstSegment "-" full in
  {| full := full; base := base |}.


(** [deepMerge(a, b)], by recursion on the incoming tree [b]. [deepMergeInto]
    carries [b] as a value so that the recursive call is on a part of it. *)
Fixpoint deepMergeInto (a : ResourceTree) (b : value) {struct b} : ResourceTree :=
  match b with
  | VObj props =>
      fold_left
        (fun out kv =>
           let k := fst kv in
           let bv := snd kv in
           match Obj.get k out, bv with
           | Some (VObj av), VObj _ => Obj.set k (VObj (deepMergeInto av bv)) out
           | _, _ => Obj.set k bv out
           end)
        props a
  | _ => a
  end.

Definition deepMerge (a b : ResourceTree) : ResourceTree := deepMergeInto a (VObj b).

(** What one round of the loop of [deepMerge] stores at the key: the
    recursive merge when both values are plain objects, else the incoming
    value. *)
Definition mergedValue (av : option value) (bv : value) : value :=
  match av, bv with
  | Some (VObj a), VObj b => VObj (deepMerge a b)
  | _, _ => bv
  end.

(** One round of the loop of [deepMerge]. *)
Definition mergeStep (out : ResourceTree) (kv : string * value) : ResourceTree :=
  Obj.set (fst kv) (mergedValue (Obj.get (fst kv) out) (snd kv)) out.

(** The body of the loop of [compileTemplates] over an object, given the
    compiled value. *)
Definition compiledProps (src : list (string * value)) (compileValue : value -> value)
  : ResourceTree :=
  fold_left (fun out kv => Obj.set (fst kv) (compileValue (snd kv)) out) src [].

(** [compileTemplates(value)] *)
Fixpoint compileTemplates (v : value) : value :=
  match v with
  | VUndefined | VNull => v
  | VArr items => VArr (List.map compileTemplates items)
  | VObj src =>
      VObj (fold_left
              (fun out kv => Obj.set (fst kv) (compileTemplates (snd kv)) out)
              src [])
  | VStr s =>
      if JsString.includes "${" s then VFn (ScriptFn s) else VFn (ConstFn s)
  | _ => v
  end.

(** [prefix ? `${prefix}.${key}` : key] *)
Definition subKeyOf (prefix key : string) : string :=
  if JsString.isEmpty prefix then key else prefix ++ "." ++ key.

(** [getTemplateKeysRecursive(root, prefix)]. An array root is enumerated
    by its indices, as [Object.keys] does. *)
Fixpoint getTemplateKeysRecursive (root : value) (prefix : string) : list string :=
  match root with
  | VObj obj =>
      fold_left
        (fun keys kv =>
           let subKey := subKeyOf prefix (fst kv) in
           match snd kv with
           | VObj _ => keys ++ getTemplateKeysRecursive (snd kv) subKey
           | _ => keys ++ [subKey]
           end)
        obj []
  | VArr items =>
      (fix loop (items : list value) (i : nat) (keys : list string) : list string :=
         match items with
         | [] => keys
         | v :: rest =>
             let subKey := subKeyOf prefix (JsString.ofNat i) in
             loop rest (S i)
               match v with
               | VObj _ => keys ++ getTemplateKeysRecursive v subKey
               | _ => keys ++ [subKey]
               end
         end) items 0 []
  | _ => []
  end.

(* ================================================================= *)
(** ** context.ts: class I18nContext *)

(** [I18nConfig]. The optional fields are [None] when absent. *)
Record I18nConfig : Type := {
  defaultLanguage : string;
  defaultLanguageOnMissing : option bool;
  allowMissing : option bool;
  templateData : option TemplateData
}.

Module I18nContext.

(** The fields of a context. [repository] stands for the repository object
    the context shares with its [I18n] instance, with the content it has
    when a method runs. [languageCode] and [shortLanguageCode] are
    [None] while unassigned. *)
Record state : Type := {
  repository : Repository;
  config : I18nConfig;
  languageCode : option string;
  shortLanguageCode : option string;
  contextData : TemplateData
}.

Definition setLocale (self : state) (code shortCode : string) : state :=
  {| repository := repository self;
     config := config self;
     languageCode := Some code;
     shortLanguageCode := Some shortCode;
     contextData := contextData self |}.

(** [locale(languageCode)]: the returned value and the updated context. *)
Definition locale (self : state) (requested : option string) : option string * state :=
  match requested with
  | None => (languageCode self, self)
  | Some tag =>
      if JsString.isEmpty tag then (languageCode self, self)
      else
        let code := JsString.toLowerCase tag in
        let shortCode := JsString.firstSegment "-" code in
        if negb (Obj.has code (repository self))
           && negb (Obj.has shortCode (repository self))
        then
          let fallback := defaultLanguage (config self) in
          (None, setLocale self fallback (JsString.firstSegment "-" fallback))
        else (None, setLocale self code shortCode)
  end.

(** [a || b] on optional strings *)
Definition orElse (a : option string) (b : string) : string :=
  match a with
  | Some s => if JsString.isEmpty s then b else s
  | None => b
  end.

Definition orEmpty (d : option TemplateData) : TemplateData :=
  match d with Some d => d | None => [] end.

(** [new I18nContext(repository, config, languageCode, templateData)] *)
Definition new (repo : Repository) (cfg : I18nConfig)
    (requested : option string) (data : option TemplateData) : state :=
  let self := {| repository := repo; config := cfg;
                 languageCode := None; shortLanguageCode := None;
                 contextData := [] |} in
  let self := snd (locale self (Some (orElse requested (defaultLanguage cfg)))) in
  {| repository := repository self;
     config := config self;
     languageCode := languageCode self;
     shortLanguageCode := shortLanguageCode self;
     contextData := Obj.assign (Obj.assign [] (orEmpty (templateData cfg))) (orEmpty data) |}.

(** [arr[key]] guarded by [key in arr]: an index below the length, or
    ["length"]. *)
Fixpoint arrayIndex (key : string) (items : list value) (i : nat) : option value :=
  match items with
  | [] => None
  | v :: rest => if String.eqb key (JsString.ofNat i) then Some v
                 else arrayIndex key rest (S i)
  end.

Definition arrayGet (key : string) (items : list value) : option value :=
  if String.eqb key "length" then Some (VNum (Z.of_nat (List.length items)))
  else arrayIndex key items 0.

(** The reducer of [getTemplate]. *)
Definition descend (acc : value) (key : string) : value :=
  match acc with
  | VObj props =>
      match Obj.get key props with Some v => v | None => VUndefined end
  | VArr items =>
      match arrayGet key items with Some v => v | None => VUndefined end
  | _ => VUndefined
  end.

(** [getTemplate(languageCode, resourceKey)] *)
Definition getTemplate (self : state) (languageCode : string) (resourceKey : string) : value :=
  match Obj.get languageCode (repository self) with
  | None => VUndefined
  | Some root =>
      if JsString.isEmpty resourceKey then VObj root
      else fold_left descend (JsString.split "." resourceKey) (VObj root)
  end.

(** The template the fallback chain of [t] settles on, before the
    [typeof] test. *)
Definition resolve (self : state) (resourceKey : string) : value :=
  let template :=
    coalesce (getTemplate self (keyOf (languageCode self)) resourceKey)
             (getTemplate self (keyOf (shortLanguageCode self)) resourceKey) in
  let template :=
    if negb (truthy template) && isSet (defaultLanguageOnMissing (config self))
    then getTemplate self (defaultLanguage (config self)) resourceKey
    else template in
  let template :=
    if negb (truthy template) && isSet (allowMissing (config self))
    then VFn (ConstFn resourceKey)
    else template in
  template.

Definition notFound (self : state) (resourceKey : string) : JsError :=
  Error ("@tgify/i18n: '" ++ keyOf (languageCode self) ++ "." ++ resourceKey
         ++ "' not found").

(** The loop binding every function of the context to [this]. *)
Definition bindFunctions (self : state) (ctx : TemplateData) : TemplateData :=
  fold_left
    (fun ctx key =>
       match Obj.get key ctx with
       | Some (DFunction name this) =>
           Obj.set key
             (bind (BoundTo (languageCode self) (shortLanguageCode self))
                   (DFunction name this))
             ctx
       | _ => ctx
       end)
    (Obj.keys ctx) ctx.

(** [t(resourceKey, templateData)] *)
Definition t (vm : Vm) (self : state) (resourceKey : string)
    (perCall : option TemplateData) : completion string :=
  match resolve self resourceKey with
  | VFn template =>
      let ctx := Obj.assign (Obj.assign [] (contextData self)) (orEmpty perCall) in
      Compile.call vm template (bindFunctions self ctx)
  | _ => Throw (notFound self resourceKey)
  end.

End I18nContext.

(* ================================================================= *)
(** ** The main module: class I18n *)

(** [I18nOptions], the argument of the constructor. The options read only
    by the directory loader and by the middleware ([directory],
    [extensions], [useSession], [sessionName]) are left out. *)
Record I18nOptions : Type := {
  optDefaultLanguage : option string;
  optDefaultLanguageOnMissing : option bool;
  optAllowMissing : option bool;
  optTemplateData : option TemplateData
}.

Module I18n.

Record state : Type := {
  repository : Repository;
  config : I18nConfig;
  keysCache : Obj.t (list string)
}.

Definition withRepository (self : state) (repo : Repository) : state :=
  {| repository := repo; config := config self; keysCache := keysCache self |}.

Definition withKeysCache (self : state) (cache : Obj.t (list string)) : state :=
  {| repository := repository self; config := config self; keysCache := cache |}.

(** The defaults of the constructor, overridden by the spread of the
    given options. *)
Definition mergeConfig (options : I18nOptions) : I18nConfig :=
  {| defaultLanguage :=
       match optDefaultLanguage options with Some l => l | None => "en" end;
     defaultLanguageOnMissing := optDefaultLanguageOnMissing options;
     allowMissing :=
       match optAllowMissing options with Some b => Some b | None => Some true end;
     templateData :=
       match optTemplateData options with
       | Some d => Some d
       | None => Some [("pluralize", DFunction "pluralize" Unbound)]
       end |}.

(** [new I18n(config)] without a [directory]. *)
Definition new (options : I18nOptions) : state :=
  {| repository := []; config := mergeConfig options; keysCache := [] |}.

(** [invalidate(language)] *)
Definition invalidate (self : state) (language : option string) : state :=
  match language with
  | None => withKeysCache self []
  | Some l =>
      if JsString.isEmpty l then withKeysCache self []
      else withKeysCache self (Obj.delete (JsString.toLowerCase l) (keysCache self))
  end.

Definition rootError (language : string) : JsError :=
  Error ("Locale '" ++ language ++ "' must contain an object at root").

(** [loadLocale(languageCode, i18Data)]: the outcome and the instance
    after the call. *)
Definition loadLocale (self : state) (languageCode : string) (i18Data : value)
  : completion unit * state :=
  let language := full (normalizeLocale languageCode) in
  let compiled := compileTemplates i18Data in
  match compiled with
  | VObj tree =>
      let existing :=
        match Obj.get language (repository self) with
        | Some tree0 => tree0
        | None => []
        end in
      let self := withRepository self
                    (Obj.set language (deepMerge existing tree) (repository self)) in
      (Return tt, invalidate self (Some language))
  | _ => (Throw (rootError language), self)
  end.

(** [resetLocale(languageCode)] *)
Definition resetLocale (self : state) (languageCode : option string) : state :=
  match languageCode with
  | Some code =>
      if JsString.isEmpty code then invalidate (withRepository self []) None
      else
        let full := full (normalizeLocale code) in
        invalidate (withRepository self (Obj.delete full (repository self))) (Some full)
  | None => invalidate (withRepository self []) None
  end.

(** [availableLocales()] *)
Definition availableLocales (self : state) : list string :=
  Obj.keys (repository self).

(** [resourceKeys(languageCode)]: the keys and the instance with its
    cache filled. *)
Definition resourceKeys (self : state) (languageCode : string)
  : list string * state :=
  let full := full (normalizeLocale languageCode) in
  match Obj.get full (keysCache self) with
  | Some cached => (cached, self)
  | None =>
      let root :=
        match Obj.get full (repository self) with
        | Some tree => tree
        | None => []
        end in
      let keys := getTemplateKeysRecursive (VObj root) "" in
      (keys, withKeysCache self (Obj.set full keys (keysCache self)))
  end.

(** [interest.has(k)] for [interest = new Set(keys)] *)
Definition setHas (keys : list string) (k : string) : bool :=
  existsb (String.eqb k) keys.

Definition orDefault (self : state) (referenceLanguage : option string) : string :=
  match referenceLanguage with
  | Some l => l
  | None => defaultLanguage (config self)
  end.

(** [missingKeys(languageOfInterest, referenceLanguage)] *)
Definition missingKeys (self : state) (languageOfInterest : string)
    (referenceLanguage : option string) : list string * state :=
  let referenceLanguage := orDefault self referenceLanguage in
  let (interest, self) := resourceKeys self languageOfInterest in
  let (reference, self) := resourceKeys self referenceLanguage in
  (filter (fun k => negb (setHas interest k)) reference, self).

(** [overspecifiedKeys(languageOfInterest, referenceLanguage)] *)
Definition overspecifiedKeys (self : state) (languageOfInterest : string)
    (referenceLanguage : option string) : list string * state :=
  let referenceLanguage := orDefault self referenceLanguage in
  missingKeys self referenceLanguage (Some languageOfInterest).

(** [translationProgress(languageOfInterest, referenceLanguage)]. The
    quotient of the two counts is taken in the rationals. *)
Definition translationProgress (self : state) (languageOfInterest : string)
    (referenceLanguage : option string) : Q * state :=
  let referenceLanguage := orDefault self referenceLanguage in
  let (reference, self) := resourceKeys self referenceLanguage in
  let referenceCount := Z.of_nat (List.length reference) in
  if Z.eqb referenceCount 0 then (1%Q, self)
  else
    let (missing, self) := missingKeys self languageOfInterest (Some referenceLanguage) in
    let missingCount := Z.of_nat (List.length missing) in
    (Qdiv (inject_Z (referenceCount - missingCount)) (inject_Z referenceCount), self).

(** [createContext(languageCode, templateData)] *)
Definition createContext (self : state) (languageCode : option string)
    (data : option TemplateData) : I18nContext.state :=
  I18nContext.new (repository self) (config self) languageCode data.

(** [t(languageCode, resourceKey, templateData)] *)
Definition t (vm : Vm) (self : state) (languageCode : option string)
    (resourceKey : string) (data : option TemplateData) : completion string :=
  I18nContext.t vm (I18nContext.new (repository self) (config self) languageCode data)
                resourceKey None.

End I18n.

(* ================================================================= *)
(** ** pluralize.ts *)

Module Pluralize.

Inductive PluralRuleKey : Type :=
| english | french | russian | czech | polish | icelandic | chinese | arabic.

(** [Form = string | ((n: number) => string)] *)
Inductive Form : Type :=
| Literal (s : string)
| Computed (f : Z -> string).

Local Open Scope Z_scope.

(** [pluralRules[ruleKey](n)] for an integer [n]; [%] is the remainder
    with the sign of the dividend. *)
Definition pluralRules (ruleKey : PluralRuleKey) (n : Z) : Z :=
  match ruleKey with
  | english => if negb (n =? 1) then 1 else 0
  | french => if n >? 1 then 1 else 0
  | russian =>
      if (Z.rem n 10 =? 1) && negb (Z.rem n 100 =? 11) then 0
      else if (Z.rem n 10 >=? 2) && (Z.rem n 10 <=? 4)
              && ((Z.rem n 100 <? 10) || (Z.rem n 100 >=? 20))
           then 1 else 2
  | czech => if n =? 1 then 0 else if (n >=? 2) && (n <=? 4) then 1 else 2
  | polish =>
      if n =? 1 then 0
      else if (Z.rem n 10 >=? 2) && (Z.rem n 10 <=? 4)
              && ((Z.rem n 100 <? 10) || (Z.rem n 100 >=? 20))
           then 1 else 2
  | icelandic => if negb (Z.rem n 10 =? 1) || (Z.rem n 100 =? 11) then 1 else 0
  | chinese => 0
  | arabic =>
      if (n >=? 0) && (n <? 3) then n
      else if Z.rem n 100 <=? 10 then 3
      else if (n >=? 11) && (Z.rem n 100 <=? 99) then 4
      else 5
  end.

Local Close Scope Z_scope.

(** [normalizeLang(code)] *)
Definition normalizeLang (code : string) : string :=
  JsString.replaceUnderscores (JsString.toLowerCase (JsString.trim code)).

Definition mapping : list (PluralRuleKey * list string) :=
  [ (english, ["da"; "de"; "en"; "es"; "fi"; "el"; "he"; "hu"; "it"; "nl"; "no";
               "pt"; "sv"; "br"]);
    (chinese, ["fa"; "id"; "ja"; "ko"; "lo"; "ms"; "th"; "tr"; "zh"; "jp"]);
    (french, ["fr"; "tl"; "pt-br"]);
    (russian, ["hr"; "ru"; "uk"; "uz"]);
    (czech, ["cs"; "sk"]);
    (icelandic, ["is"]);
    (polish, ["pl"]);
    (arabic, ["ar"]) ].

(** [langToRule], as the two nested loops over [mapping] fill it. *)
Definition langToRule : Obj.t PluralRuleKey :=
  fold_left
    (fun table entry =>
       fold_left
         (fun table lang => Obj.set (normalizeLang lang) (fst entry) table)
         (snd entry) table)
    mapping [].

(** The module state: the [warned] set and what went to [console.warn]. *)
Record state : Type := { warned : list string; console : list string }.

Definition ruleName (ruleKey : PluralRuleKey) : string :=
  match ruleKey with
  | english => "english" | french => "french" | russian => "russian"
  | czech => "czech" | polish => "polish" | icelandic => "icelandic"
  | chinese => "chinese" | arabic => "arabic"
  end.

(** The double-quote character, as a string. *)
Definition quote : string := String (ascii_of_nat 34) EmptyString.

(** [forms[idx]] *)
Definition formAt (forms : list Form) (idx : Z) : option Form :=
  if (idx <? 0)%Z then None else nth_error forms (Z.to_nat idx).

(** [forms[forms.length - 1]] *)
Definition lastForm (forms : list Form) : option Form :=
  match forms with
  | [] => None
  | _ => nth_error forms (List.length forms - 1)
  end.

(** [!form] *)
Definition formMissing (form : option Form) : bool :=
  match form with
  | None => true
  | Some (Literal s) => JsString.isEmpty s
  | Some (Computed _) => false
  end.

(** [pluralize(number, forms, langCode)]: the string and the module state
    after the call. *)
Definition pluralize (st : state) (number : Z) (forms : list Form)
    (langCode : option string) : string * state :=
  let langCode := match langCode with Some c => c | None => "en" end in
  let norm := normalizeLang langCode in
  let base := JsString.firstSegment "-" norm in
  let ruleKey :=
    match Obj.get norm langToRule with
    | Some r => r
    | None => match Obj.get base langToRule with Some r => r | None => english end
    end in
  let st :=
    if negb (Obj.has norm langToRule) && negb (Obj.has base langToRule)
       && negb (existsb (String.eqb norm) (warned st))
    then {| warned := warned st ++ [norm];
            console := console st ++
              [("i18n::pluralize: Unsupported language " ++ quote ++ langCode
                ++ quote ++ ", fallback to " ++ quote ++ ruleName ruleKey
                ++ quote)%string] |}
    else st in
  let idx := pluralRules ruleKey number in
  let form :=
    match formAt forms idx with
    | Some f => Some f
    | None => lastForm forms
    end in
  if formMissing form then (JsString.ofZ number, st)
  else
    match form with
    | Some (Computed f) => (f number, st)
    | Some (Literal s) => ((JsString.ofZ number ++ " " ++ s)%string, st)
    | None => (JsString.ofZ number, st)
    end.

End Pluralize.

(* ================================================================= *)
(** ** A reference host for the examples *)

(** A host that evaluates the template literals whose spans are bare
    identifiers: [${name}] is replaced by the context's entry [name], an
    unknown name fails as an unresolved reference does. It never times
    out. *)
Module ExampleVm.

Inductive mode : Type :=
| Text
| Escaped
| Dollar
| Span (ident : string).

Definition show (d : datum) : string :=
  match d with
  | DUndefined => "undefined"
  | DNull => "null"
  | DBool true => "true"
  | DBool false => "false"
  | DNum n => JsString.ofZ n
  | DStr s => s
  | DFunction name _ => "function " ++ name
  | DObject _ => "[object Object]"
  end.

Definition prepend (c : string) (rest : string + JsError) : string + JsError :=
  match rest with
  | inl s => inl (c ++ s)%string
  | inr e => inr e
  end.

Definition unterminated : JsError :=
  mkJsError "SyntaxError" "Unterminated template literal".

Fixpoint eval (ctx : TemplateData) (m : mode) (s : string) : string + JsError :=
  match s with
  | EmptyString => inr unterminated
  | String c r =>
      match m with
      | Text =>
          if Ascii.eqb c "`" then inl ""
          else if Ascii.eqb c "092" then eval ctx Escaped r
          else if Ascii.eqb c "$" then eval ctx Dollar r
          else prepend (String c "") (eval ctx Text r)
      | Escaped => prepend (String c "") (eval ctx Text r)
      | Dollar =>
          if Ascii.eqb c "{" then eval ctx (Span "") r
          else if Ascii.eqb c "`" then inl "$"
          else if Ascii.eqb c "092" then prepend "$" (eval ctx Escaped r)
          else if Ascii.eqb c "$" then prepend "$" (eval ctx Dollar r)
          else prepend (String "$" (String c "")) (eval ctx Text r)
      | Span ident =>
          if Ascii.eqb c "}" then
            match Obj.get ident ctx with
            | Some d => prepend (show d) (eval ctx Text r)
            | None => inr (mkJsError "ReferenceError" (ident ++ " is not defined")%string)
            end
          else eval ctx (Span (ident ++ String c "")%string) r
      end
  end.

Definition vm : Vm :=
  fun script context _ =>
    match script with
    | String "`" body => eval context Text body
    | _ => inr (mkJsError "SyntaxError" "Unexpected token")
    end.

End ExampleVm.

(* ================================================================= *)
(** ** Names for the intermediate results of the methods *)

(** The context [t] hands to the template: the data of the context, then
    the data of the call, every function bound. *)
Definition renderData (self : I18nContext.state) (perCall : option TemplateData)
  : TemplateData :=
  I18nContext.bindFunctions self
    (Obj.assign (Obj.assign [] (I18nContext.contextData self))
                (I18nContext.orEmpty perCall)).

(** What the two lookups of [t] under the effective locale give. *)
Definition lookedUp (self : I18nContext.state) (resourceKey : string) : value :=
  coalesce
    (I18nContext.getTemplate self (keyOf (I18nContext.languageCode self)) resourceKey)
    (I18nContext.getTemplate self (keyOf (I18nContext.shortLanguageCode self)) resourceKey).

(** The same after the lookup under the default language, when the
    configuration asks for it and nothing truthy was found. *)
Definition lookedUpWithDefault (self : I18nContext.state) (resourceKey : string) : value :=
  if negb (truthy (lookedUp self resourceKey))
     && isSet (defaultLanguageOnMissing (I18nContext.config self))
  then I18nContext.getTemplate self (defaultLanguage (I18nContext.config self)) resourceKey
  else lookedUp self resourceKey.

(** The rule family [pluralize] selects for a language code. *)
Definition selectedRule (langCode : option string) : Pluralize.PluralRuleKey :=
  let langCode := match langCode with Some c => c | None => "en" end in
  let norm := Pluralize.normalizeLang langCode in
  let base := JsString.firstSegment "-" norm in
  match Obj.get norm Pluralize.langToRule with
  | Some r => r
  | None =>
      match Obj.get base Pluralize.langToRule with
      | Some r => r
      | None => Pluralize.english
      end
  end.

(** The form [pluralize] selects: [forms[idx] ?? forms[forms.length - 1]]. *)
Definition selectedForm (forms : list Pluralize.Form) (idx : Z) : option Pluralize.Form :=
  match Pluralize.formAt forms idx with
  | Some f => Some f
  | None => Pluralize.lastForm forms
  end.

(* ================================================================= *)
(** ** Notions used to state the further properties *)

(** The number of forms a rule family selects among, for integer counts.
    The Arabic family is written with six bands; its last [return] is
    reached by no integer, which leaves five. *)
Definition familySize (ruleKey : Pluralize.PluralRuleKey) : Z :=
  match ruleKey with
  | Pluralize.english | Pluralize.french | Pluralize.icelandic => 2
  | Pluralize.russian | Pluralize.czech | Pluralize.polish => 3
  | Pluralize.chinese => 1
  | Pluralize.arabic => 5
  end%Z.

(** The language is registered in [langToRule], by its normalized code or
    by the part of it before the first hyphen. *)
Definition supportedLanguage (langCode : string) : bool :=
  Obj.has (Pluralize.normalizeLang langCode) Pluralize.langToRule
  || Obj.has (JsString.firstSegment "-" (Pluralize.normalizeLang langCode))
             Pluralize.langToRule.

(** The strings of a list are pairwise distinct. *)
Fixpoint distinct (ks : list string) : bool :=
  match ks with
  | [] => true
  | k :: rest => negb (existsb (String.eqb k) rest) && distinct rest
  end.

(** No raw text is left in a value: no string at any depth. *)
Fixpoint rawFree (v : value) : bool :=
  match v with
  | VStr _ => false
  | VArr items => forallb rawFree items
  | VObj props => forallb (fun kv => rawFree (snd kv)) props
  | _ => true
  end.

(** The value is a well-formed JavaScript value: at every depth, the keys
    of an object are distinct. *)
Fixpoint wellFormed (v : value) : bool :=
  match v with
  | VArr items => forallb wellFormed items
  | VObj props =>
      distinct (List.map fst props) && forallb (fun kv => wellFormed (snd kv)) props
  | _ => true
  end.

(** The receiver [t] binds the functions of the data to. *)
Definition receiverOf (self : I18nContext.state) : receiver :=
  BoundTo (I18nContext.languageCode self) (I18nContext.shortLanguageCode self).

(** [b] where it has the key, [a] elsewhere: what a spread of [a] then [b]
    holds at a key. *)
Definition overriding (A : Type) (a b : option A) : option A :=
  match b with Some v => Some v | None => a end.

(** A compiled value: no raw text, and distinct keys in every object. *)
Definition clean (v : value) : bool := rawFree v && wellFormed v.

(** The instances the methods of [I18n] produce from a new instance. (The
    fields are public in the source; an instance whose fields were assigned
    from outside is not covered.) *)
Inductive Reachable : I18n.state -> Prop :=
| ReachNew (options : I18nOptions) : Reachable (I18n.new options)
| ReachLoadLocale (self : I18n.state) (languageCode : string) (i18Data : value) :
    Reachable self -> Reachable (snd (I18n.loadLocale self languageCode i18Data))
| ReachResetLocale (self : I18n.state) (languageCode : option string) :
    Reachable self -> Reachable (I18n.resetLocale self languageCode)
| ReachResourceKeys (self : I18n.state) (languageCode : string) :
    Reachable self -> Reachable (snd (I18n.resourceKeys self languageCode))
| ReachMissingKeys (self : I18n.state) (interest : string) (reference : option string) :
    Reachable self -> Reachable (snd (I18n.missingKeys self interest reference))
| ReachOverspecifiedKeys (self : I18n.state) (interest : string)
    (reference : option string) :
    Reachable self -> Reachable (snd (I18n.overspecifiedKeys self interest reference))
| ReachTranslationProgress (self : I18n.state) (interest : string)
    (reference : option string) :
    Reachable self -> Reachable (snd (I18n.translationProgress self interest reference)).

(** The tree stored for a locale tag, [{}] when there is none. *)
Definition treeOf (self : I18n.state) (tag : string) : ResourceTree :=
  match Obj.get tag (I18n.repository self) with
  | Some tree => tree
  | None => []
  end.

(** The keys of a locale as a traversal of its tree gives them now. *)
Definition freshKeys (self : I18n.state) (tag : string) : list string :=
  getTemplateKeysRecursive (VObj (treeOf self tag)) "".

(** Every entry of the key cache is what a traversal would give now. *)
Definition cacheCoherent (self : I18n.state) : Prop :=
  forall (tag : string) (keys : list string),
    Obj.get tag (I18n.keysCache self) = Some keys -> keys = freshKeys self tag.

(** What holds of the repository of every reached instance: the locale
    tags are distinct and in normal form, and every tree is compiled. *)
Definition repositorySound (self : I18n.state) : Prop :=
  NoDup (I18n.availableLocales self)
  /\ forall (tag : string) (tree : ResourceTree),
       In (tag, tree) (I18n.repository self) ->
       full (normalizeLocale tag) = tag /\ clean (VObj tree) = true.

(** A key a dotted path can address as one segment: not empty, no dot. *)
Definition plainKey (k : string) : bool :=
  negb (JsString.isEmpty k) && negb (JsString.includes "." k).

(** A tree of templates: objects with distinct segment keys, down to
    template functions. This is what the compilation of a document made of
    objects and strings gives. *)
Fixpoint templateTree (v : value) : bool :=
  match v with
  | VFn _ => true
  | VObj props =>
      distinct (List.map fst props)
      && forallb (fun kv => plainKey (fst kv) && templateTree (snd kv)) props
  | _ => false
  end.

(** A document made of objects and strings, with distinct segment keys. *)
Fixpoint stringDocument (v : value) : bool :=
  match v with
  | VStr _ => true
  | VObj props =>
      distinct (List.map fst props)
      && forallb (fun kv => plainKey (fst kv) && stringDocument (snd kv)) props
  | _ => false
  end.


(* ================================================================= *)
(** ** Sample instances *)

Module Examples.

(** The instance that results from loading the given documents, in order,
    into [new I18n(options)]. *)
Definition loaded (options : I18nOptions) (documents : list (string * value))
  : I18n.state :=
  fold_left (fun self doc => snd (I18n.loadLocale self (fst doc) (snd doc)))
            documents (I18n.new options).

Definition defaults : I18nOptions :=
  {| optDefaultLanguage := None; optDefaultLanguageOnMissing := None;
     optAllowMissing := None; optTemplateData := None |}.

(** [{ defaultLanguageOnMissing: true }] *)
Definition fallbackToDefault : I18nOptions :=
  {| optDefaultLanguage := None; optDefaultLanguageOnMissing := Some true;
     optAllowMissing := None; optTemplateData := None |}.

(** [{ defaultLanguageOnMissing: true, allowMissing: false }] *)
Definition fallbackButStrict : I18nOptions :=
  {| optDefaultLanguage := None; optDefaultLanguageOnMissing := Some true;
     optAllowMissing := Some false; optTemplateData := None |}.

(** [{ defaultLanguage: "ru" }] *)
Definition russianDefault : I18nOptions :=
  {| optDefaultLanguage := Some "ru"; optDefaultLanguageOnMissing := None;
     optAllowMissing := None; optTemplateData := None |}.

Definition en : value :=
  VObj [("greeting", VStr "Hello, ${name}");
        ("menu", VStr "Menu");
        ("cart", VObj [("title", VStr "Cart")])].

Definition fr : value :=
  VObj [("menu", VObj [("title", VStr "Titre")])].

Definition ru : value :=
  VObj [("menu", VStr "Menyu")].

Definition ptBR : value :=
  VObj [("menu", VStr "Cardapio")].

End Examples.

Unset Implicit Arguments.

(* ================================================================= *)
(** * Properties *)

Example toLowerCase_ex : JsString.toLowerCase "en_US" = "en_us".
Proof. reflexivity. Qed.
Example trim_ex : JsString.trim "  pt BR " = "pt BR".
Proof. reflexivity. Qed.
Example split_ex : JsString.split "." "menu.cart..title" = ["menu"; "cart"; ""; "title"].
Proof. reflexivity. Qed.
Example split_empty_ex : JsString.split "-" "" = [""].
Proof. reflexivity. Qed.
Example ofZ_ex : (JsString.ofZ 0, JsString.ofZ 15, JsString.ofZ (-7)) = ("0", "15", "-7").
Proof. reflexivity. Qed.
Example escape_ex : JsString.escapeBackticks "a`b" = "a\`b".
Proof. reflexivity. Qed.
Example includes_ex : (JsString.includes "${" "Hi ${name}", JsString.includes "${" "Hi $name") = (true, false).
Proof. reflexivity. Qed.

Example render_ex :
  Compile.compile ExampleVm.vm "Hello, ${name}" None None [("name", DStr "Ann")]
  = Return "Hello, Ann".
Proof. reflexivity. Qed.
Example render_fail_ex :
  Compile.compile ExampleVm.vm "Hello, ${name}" None None []
  = Throw (Error "ReferenceError: name is not defined").
Proof. reflexivity. Qed.
Example langToRule_ex :
  (Obj.get "pt-br" Pluralize.langToRule, Obj.get "pt" Pluralize.langToRule,
   Obj.get "xx" Pluralize.langToRule)
  = (Some Pluralize.french, Some Pluralize.english, None).
Proof. reflexivity. Qed.

(* ================================================================= *)
(** ** Facts about strings *)

Module JsStringFacts.
Import JsString.

Ltac each_ascii c :=
  destruct c as [[] [] [] [] [] [] [] []]; reflexivity.

Lemma lowerChar_space (c : ascii) : isWhiteSpace (lowerChar c) = isWhiteSpace c.
Proof. each_ascii c. Qed.

Lemma hyphenate_space (c : ascii) : isWhiteSpace (hyphenate c) = isWhiteSpace c.
Proof. each_ascii c. Qed.

Lemma lowerChar_idem (c : ascii) : lowerChar (lowerChar c) = lowerChar c.
Proof. each_ascii c. Qed.

Lemma hyphenate_idem (c : ascii) : hyphenate (hyphenate c) = hyphenate c.
Proof. each_ascii c. Qed.

Lemma lower_hyphenate (c : ascii) : lowerChar (hyphenate c) = hyphenate (lowerChar c).
Proof. each_ascii c. Qed.

Section CharMaps.
Variable h : ascii -> ascii.
Hypothesis h_space : forall c, isWhiteSpace (h c) = isWhiteSpace c.

Lemma trimStart_map (s : string) : trimStart (map h s) = map h (trimStart s).
Proof.
  induction s as [|c r IH]; simpl; [reflexivity|].
  rewrite h_space. destruct (isWhiteSpace c); [exact IH | reflexivity].
Qed.

Lemma trimEnd_map (s : string) : trimEnd (map h s) = map h (trimEnd s).
Proof.
  induction s as [|c r IH]; simpl; [reflexivity|].
  rewrite IH, h_space.
  destruct (trimEnd r); simpl; [destruct (isWhiteSpace c)|]; reflexivity.
Qed.

Lemma trim_map (s : string) : trim (map h s) = map h (trim s).
Proof. unfold trim. now rewrite trimStart_map, trimEnd_map. Qed.
End CharMaps.

Lemma map_map (f g : ascii -> ascii) (s : string) :
  map f (map g s) = map (fun c => f (g c)) s.
Proof. induction s as [|c r IH]; simpl; [reflexivity | now rewrite IH]. Qed.

Lemma map_ext (f g : ascii -> ascii) (s : string) :
  (forall c, f c = g c) -> map f s = map g s.
Proof. intros E. induction s as [|c r IH]; simpl; [reflexivity | now rewrite E, IH]. Qed.

Lemma trimStart_clean (s : string) : startsClean (trimStart s).
Proof.
  induction s as [|c r IH]; simpl; [exact I|].
  destruct (isWhiteSpace c) eqn:E; [exact IH | exact E].
Qed.

Lemma trimStart_fixed (s : string) : startsClean s -> trimStart s = s.
Proof. destruct s as [|c r]; simpl; [reflexivity|]. now intros ->. Qed.

Lemma trimEnd_clean (s : string) : startsClean s -> startsClean (trimEnd s).
Proof.
  destruct s as [|c r]; simpl; [trivial|]. intros E.
  destruct (trimEnd r); simpl; [rewrite E|]; exact E.
Qed.

Lemma trimEnd_idem (s : string) : trimEnd (trimEnd s) = trimEnd s.
Proof.
  induction s as [|c r IH]; simpl; [reflexivity|].
  destruct (trimEnd r) as [|c' r'] eqn:E.
  - destruct (isWhiteSpace c) eqn:W; simpl; [reflexivity | now rewrite W].
  - change (trimEnd (String c (String c' r')) = String c (String c' r')).
    cbn [trimEnd] in *. now rewrite IH.
Qed.

Lemma trim_idem (s : string) : trim (trim s) = trim s.
Proof.
  unfold trim.
  rewrite (trimStart_fixed _ (trimEnd_clean _ (trimStart_clean s))).
  apply trimEnd_idem.
Qed.

End JsStringFacts.

(** Both normalizers are idempotent. *)
Lemma normalizeLang_idempotent (code : string) :
  Pluralize.normalizeLang (Pluralize.normalizeLang code) = Pluralize.normalizeLang code.
Proof.
  unfold Pluralize.normalizeLang, JsString.toLowerCase.
  unfold JsString.replaceUnderscores.
  rewrite (JsStringFacts.trim_map _ JsStringFacts.hyphenate_space).
  rewrite (JsStringFacts.trim_map _ JsStringFacts.lowerChar_space).
  rewrite JsStringFacts.trim_idem.
  rewrite !JsStringFacts.map_map.
  apply JsStringFacts.map_ext. intros c.
  rewrite JsStringFacts.lower_hyphenate, JsStringFacts.lowerChar_idem.
  apply JsStringFacts.hyphenate_idem.
Qed.

Lemma normalizeLocale_full_idempotent (code : string) :
  full (normalizeLocale (full (normalizeLocale code))) = full (normalizeLocale code).
Proof. exact (normalizeLang_idempotent code). Qed.

(* ================================================================= *)
(** ** Facts about objects *)

Module ObjFacts.
Section Props.
Variable A : Type.
Implicit Types (o : Obj.t A) (k : string) (v : A).

Lemma get_set_same o k v : Obj.get k (Obj.set k v o) = Some v.
Proof.
  induction o as [|[k' v'] rest IH]; simpl.
  - now rewrite String.eqb_refl.
  - destruct (String.eqb k k') eqn:E; simpl; rewrite E; [reflexivity | exact IH].
Qed.

Lemma get_set_other o k k' v : k <> k' -> Obj.get k' (Obj.set k v o) = Obj.get k' o.
Proof.
  intros N. induction o as [|[k0 v0] rest IH]; simpl.
  - destruct (String.eqb k' k) eqn:E; [|reflexivity].
    apply String.eqb_eq in E. congruence.
  - destruct (String.eqb k k0) eqn:E; simpl.
    + apply String.eqb_eq in E. subst k0.
      destruct (String.eqb k' k) eqn:E'; [|reflexivity].
      apply String.eqb_eq in E'. congruence.
    + now rewrite IH.
Qed.

Lemma get_None_notin o k : ~ In k (Obj.keys o) -> Obj.get k o = None.
Proof.
  induction o as [|[k' v'] rest IH]; simpl; [reflexivity|]. intros N.
  destruct (String.eqb k k') eqn:E.
  - apply String.eqb_eq in E. subst. tauto.
  - apply IH. tauto.
Qed.

Lemma get_Some_in o k v : Obj.get k o = Some v -> In k (Obj.keys o).
Proof.
  induction o as [|[k' v'] rest IH]; simpl; [discriminate|].
  destruct (String.eqb k k') eqn:E.
  - apply String.eqb_eq in E. auto.
  - auto.
Qed.

Lemma notin_get_None o k : Obj.get k o = None -> ~ In k (Obj.keys o).
Proof.
  induction o as [|[k' v'] rest IH]; simpl; [tauto|].
  destruct (String.eqb k k') eqn:E; [discriminate|].
  apply String.eqb_neq in E. intros G [H|H]; [congruence | now apply IH].
Qed.

Lemma keys_set o k v :
  Obj.keys (Obj.set k v o) =
  if Obj.has k o then Obj.keys o else Obj.keys o ++ [k].
Proof.
  unfold Obj.has. induction o as [|[k' v'] rest IH]; simpl; [reflexivity|].
  destruct (String.eqb k k') eqn:E; simpl; [reflexivity|].
  rewrite IH. now destruct (Obj.get k rest).
Qed.

Lemma NoDup_keys_set o k v : NoDup (Obj.keys o) -> NoDup (Obj.keys (Obj.set k v o)).
Proof.
  intros ND. rewrite keys_set. unfold Obj.has.
  destruct (Obj.get k o) eqn:G; [exact ND|].
  apply notin_get_None in G.
  induction (Obj.keys o) as [|x xs IH]; simpl.
  - repeat constructor. simpl. tauto.
  - inversion ND as [|? ? Hx NDxs]; subst. simpl in G.
    constructor; [|apply IH; tauto].
    rewrite in_app_iff. simpl. intros [H|[H|[]]]; [tauto | subst; tauto].
Qed.
End Props.
End ObjFacts.

(* ================================================================= *)
(** ** Deep merge *)

Lemma fold_left_ext (A B : Type) (f g : A -> B -> A) (l : list B) (a : A) :
  (forall x y, f x y = g x y) -> fold_left f l a = fold_left g l a.
Proof.
  intros E. revert a. induction l as [|y l IH]; intros a; simpl; [reflexivity|].
  now rewrite E, IH.
Qed.

(** [deepMerge] is the loop over the incoming entries. *)
Lemma deepMerge_loop (a b : ResourceTree) : deepMerge a b = fold_left mergeStep b a.
Proof.
  unfold deepMerge. simpl. apply fold_left_ext.
  intros out [k bv]. unfold mergeStep, mergedValue. simpl.
  destruct (Obj.get k out) as [[]|]; destruct bv; reflexivity.
Qed.

Lemma get_mergeLoop (b a : ResourceTree) (k : string) :
  NoDup (Obj.keys b) ->
  Obj.get k (fold_left mergeStep b a) =
  match Obj.get k b with
  | Some bv => Some (mergedValue (Obj.get k a) bv)
  | None => Obj.get k a
  end.
Proof.
  revert a. induction b as [|[k0 bv0] rest IH]; intros a ND; simpl; [reflexivity|].
  inversion ND as [|? ? Hnot NDrest]; subst.
  rewrite (IH _ NDrest).
  change (mergeStep a (k0, bv0))
    with (Obj.set k0 (mergedValue (Obj.get k0 a) bv0) a).
  destruct (String.eqb k k0) eqn:E.
  - apply String.eqb_eq in E. subst k0.
    rewrite (ObjFacts.get_None_notin _ _ _ Hnot).
    apply ObjFacts.get_set_same.
  - apply String.eqb_neq in E.
    rewrite ObjFacts.get_set_other by congruence. reflexivity.
Qed.

Lemma get_deepMerge (a b : ResourceTree) (k : string) :
  NoDup (Obj.keys b) ->
  Obj.get k (deepMerge a b) =
  match Obj.get k b with
  | Some bv => Some (mergedValue (Obj.get k a) bv)
  | None => Obj.get k a
  end.
Proof. rewrite deepMerge_loop. apply get_mergeLoop. Qed.

(** The keys of a compiled object are distinct. *)
Lemma NoDup_fold_set (A B : Type) (f : B -> string) (g : B -> A) (l : list B) (o : Obj.t A) :
  NoDup (Obj.keys o) ->
  NoDup (Obj.keys (fold_left (fun out x => Obj.set (f x) (g x) out) l o)).
Proof.
  revert o. induction l as [|x l IH]; intros o ND; simpl; [exact ND|].
  apply IH. now apply ObjFacts.NoDup_keys_set.
Qed.

Lemma compileTemplates_object (src : list (string * value)) :
  compileTemplates (VObj src) = VObj (compiledProps src compileTemplates).
Proof. reflexivity. Qed.




(** What two successive loads leave in the repository. *)
Lemma loadLocale_object (self : I18n.state) (lang : string) (raw : list (string * value)) :
  I18n.loadLocale self lang (VObj raw) =
  let language := full (normalizeLocale lang) in
  let existing :=
    match Obj.get language (I18n.repository self) with
    | Some tree0 => tree0
    | None => []
    end in
  (Return tt,
   I18n.invalidate
     (I18n.withRepository self
        (Obj.set language (deepMerge existing (compiledProps raw compileTemplates))
                 (I18n.repository self)))
     (Some language)).
Proof. reflexivity. Qed.

Lemma repository_invalidate (self : I18n.state) (language : option string) :
  I18n.repository (I18n.invalidate self language) = I18n.repository self.
Proof.
  destruct language as [l|]; simpl; [|reflexivity].
  now destruct (JsString.isEmpty l).
Qed.



(* ================================================================= *)
(** ** Loading *)



(* ================================================================= *)
(** ** Rendering through a context *)

(** C4. The constructor copies [allowMissing: false] into the configuration
    whatever [defaultLanguageOnMissing] is: with both options given, a key
    that no locale defines is not rendered as the raw key, the call
    throws. *)
Theorem defaultLanguageOnMissing_keeps_allowMissing :
  forall vm : Vm,
    defaultLanguageOnMissing (I18n.config (I18n.new Examples.fallbackButStrict)) = Some true
    /\ allowMissing (I18n.config (I18n.new Examples.fallbackButStrict)) = Some false
    /\ I18n.t vm (Examples.loaded Examples.fallbackButStrict [("en", Examples.en)])
              (Some "en") "farewell" None
       = Throw (Error "@tgify/i18n: 'en.farewell' not found").
Proof. intros vm. repeat split. Qed.

Lemma resolve_unfold (self : I18nContext.state) (resourceKey : string) :
  I18nContext.resolve self resourceKey =
  if negb (truthy (lookedUpWithDefault self resourceKey))
     && isSet (allowMissing (I18nContext.config self))
  then VFn (ConstFn resourceKey)
  else lookedUpWithDefault self resourceKey.
Proof. reflexivity. Qed.

Lemma t_unfold (vm : Vm) (self : I18nContext.state) (resourceKey : string)
    (perCall : option TemplateData) :
  I18nContext.t vm self resourceKey perCall =
  match I18nContext.resolve self resourceKey with
  | VFn template => Compile.call vm template (renderData self perCall)
  | _ => Throw (I18nContext.notFound self resourceKey)
  end.
Proof. reflexivity. Qed.

Lemma truthy_typeofObject (v : value) : typeofObject v = true -> truthy v = true.
Proof. now destruct v. Qed.

(** C10. When the lookup of a key under the effective locale, full code
    first and short code when that gives nothing, yields a tree node or
    another object that is not a function, [t] throws the not-found error,
    whatever [allowMissing] and [defaultLanguageOnMissing] are: the object
    is truthy, so neither the default language nor the raw key is tried. *)
Theorem t_throws_on_tree_node :
  forall (vm : Vm) (self : I18nContext.state) (resourceKey : string)
         (perCall : option TemplateData),
    typeofObject (lookedUp self resourceKey) = true ->
    I18nContext.t vm self resourceKey perCall
    = Throw (Error ("@tgify/i18n: '" ++ keyOf (I18nContext.languageCode self) ++ "."
                    ++ resourceKey ++ "' not found")).
Proof.
  intros vm self resourceKey perCall IsObject.
  rewrite t_unfold, resolve_unfold. unfold lookedUpWithDefault.
  rewrite (truthy_typeofObject _ IsObject). simpl.
  rewrite (truthy_typeofObject _ IsObject). simpl.
  destruct (lookedUp self resourceKey); try discriminate IsObject; reflexivity.
Qed.

Lemma t_throws_on_tree_node_witness :
  typeofObject
    (lookedUp (I18n.createContext
                 (Examples.loaded Examples.fallbackToDefault
                    [("en", Examples.en); ("fr", Examples.fr)])
                 (Some "fr") None) "menu") = true
  /\ I18nContext.t ExampleVm.vm
       (I18n.createContext
          (Examples.loaded Examples.fallbackToDefault
             [("en", Examples.en); ("fr", Examples.fr)])
          (Some "fr") None) "menu" None
     = Throw (Error "@tgify/i18n: 'fr.menu' not found").
Proof.
  split; [reflexivity|].
  exact (t_throws_on_tree_node ExampleVm.vm
           (I18n.createContext
              (Examples.loaded Examples.fallbackToDefault
                 [("en", Examples.en); ("fr", Examples.fr)])
              (Some "fr") None) "menu" None eq_refl).
Defined.




(* ================================================================= *)
(** ** The template compiler *)



(* ================================================================= *)
(** ** Locale resolution *)

(** What [locale] does with a non-empty tag: it lower-cases the tag,
    nothing more, before it consults the repository. *)
Lemma locale_resolution (self : I18nContext.state) (tag : string) :
  JsString.isEmpty tag = false ->
  let code := JsString.toLowerCase tag in
  let shortCode := JsString.firstSegment "-" code in
  let self' := snd (I18nContext.locale self (Some tag)) in
  let fallback := defaultLanguage (I18nContext.config self) in
  (I18nContext.languageCode self', I18nContext.shortLanguageCode self') =
  if Obj.has code (I18nContext.repository self)
     || Obj.has shortCode (I18nContext.repository self)
  then (Some code, Some shortCode)
  else (Some fallback, Some (JsString.firstSegment "-" fallback)).
Proof.
  intros NonEmpty code shortCode self' fallback. subst self'.
  unfold I18nContext.locale. rewrite NonEmpty. fold code shortCode fallback.
  destruct (Obj.has code _), (Obj.has shortCode _); reflexivity.
Qed.

(** C2. With only [en] loaded, the tag [en-us] resolves to [en-us] with the
    short code [en], under which the lookups find the English tree. The tag
    [en_US], whose normal form is the same [en-us], does not: [locale]
    lower-cases it to [en_us], finds neither that nor a short code in the
    repository, and falls back to the default language. *)
Theorem locale_lowercases_only :
  (let ctx := I18n.createContext
                (Examples.loaded Examples.russianDefault [("en", Examples.en)])
                (Some "en-us") None in
   (I18nContext.languageCode ctx, I18nContext.shortLanguageCode ctx)
   = (Some "en-us", Some "en"))
  /\ normalizeLocale "en_US" = {| full := "en-us"; base := "en" |}
  /\ Obj.has "en" (I18n.repository
                     (Examples.loaded Examples.russianDefault [("en", Examples.en)]))
     = true
  /\ (let ctx := I18n.createContext
                   (Examples.loaded Examples.russianDefault [("en", Examples.en)])
                   (Some "en_US") None in
      (I18nContext.languageCode ctx, I18nContext.shortLanguageCode ctx)
      = (Some "ru", Some "ru")).
Proof. repeat split. Qed.

(** C6. Normalization of a locale tag is idempotent, and [loadLocale]
    applies it: a document loaded as [pt_BR] is stored under [pt-br]. The
    resolution of a context does not: asked for [pt_BR] or for [ pt-br ]
    with spaces around it, it only lower-cases the tag, misses the stored
    locale and serves the default language. *)
Theorem normalization_skipped_by_locale :
  (forall code : string,
      normalizeLocale (full (normalizeLocale code)) = normalizeLocale code)
  /\ I18n.availableLocales
       (Examples.loaded Examples.defaults
          [("en", Examples.en); ("pt_BR", Examples.ptBR)]) = ["en"; "pt-br"]
  /\ (forall vm : Vm,
         I18n.t vm (Examples.loaded Examples.defaults
                      [("en", Examples.en); ("pt_BR", Examples.ptBR)])
                (Some "pt-BR") "menu" None = Return "Cardapio"
         /\ I18n.t vm (Examples.loaded Examples.defaults
                         [("en", Examples.en); ("pt_BR", Examples.ptBR)])
                   (Some "pt_BR") "menu" None = Return "Menu"
         /\ I18n.t vm (Examples.loaded Examples.defaults
                         [("en", Examples.en); ("pt_BR", Examples.ptBR)])
                   (Some " pt-br ") "menu" None = Return "Menu")
  /\ I18nContext.languageCode
       (I18n.createContext
          (Examples.loaded Examples.defaults
             [("en", Examples.en); ("pt_BR", Examples.ptBR)]) (Some "pt_BR") None)
     = Some "en".
Proof.
  split.
  - intros code. pose proof (normalizeLang_idempotent code) as E.
    unfold Pluralize.normalizeLang in E. unfold normalizeLocale. cbn [full].
    now rewrite E.
  - repeat split.
Qed.

(* ================================================================= *)
(** ** Key coverage *)

Lemma resourceKeys_caches (self : I18n.state) (languageCode : string) :
  Obj.get (full (normalizeLocale languageCode))
          (I18n.keysCache (snd (I18n.resourceKeys self languageCode)))
  = Some (fst (I18n.resourceKeys self languageCode)).
Proof.
  unfold I18n.resourceKeys.
  destruct (Obj.get (full (normalizeLocale languageCode)) (I18n.keysCache self)) eqn:G;
    simpl; [exact G | apply ObjFacts.get_set_same].
Qed.

Lemma resourceKeys_keeps (self : I18n.state) (languageCode f : string) (ks : list string) :
  Obj.get f (I18n.keysCache self) = Some ks ->
  Obj.get f (I18n.keysCache (snd (I18n.resourceKeys self languageCode))) = Some ks.
Proof.
  intros G. unfold I18n.resourceKeys.
  destruct (Obj.get (full (normalizeLocale languageCode)) (I18n.keysCache self)) eqn:G';
    simpl; [exact G|].
  rewrite ObjFacts.get_set_other; [exact G|].
  intros <-. pose proof (eq_trans (eq_sym G) G') as Absurd. discriminate Absurd.
Qed.

Lemma resourceKeys_hit (self : I18n.state) (languageCode : string) (ks : list string) :
  Obj.get (full (normalizeLocale languageCode)) (I18n.keysCache self) = Some ks ->
  I18n.resourceKeys self languageCode = (ks, self).
Proof. intros G. unfold I18n.resourceKeys. now rewrite G. Qed.

(** The keys [missingKeys] reports, in terms of the two key lists. *)
Lemma missingKeys_filter (self : I18n.state) (interest reference : string) (ks : list string) :
  Obj.get (full (normalizeLocale reference)) (I18n.keysCache self) = Some ks ->
  fst (I18n.missingKeys self interest (Some reference)) =
  filter (fun k => negb (I18n.setHas (fst (I18n.resourceKeys self interest)) k)) ks.
Proof.
  intros G. unfold I18n.missingKeys. cbn [I18n.orDefault].
  pose proof (resourceKeys_keeps self interest _ _ G) as G'.
  destruct (I18n.resourceKeys self interest) as [ki self1]. cbn [fst snd] in *.
  rewrite (resourceKeys_hit _ _ _ G'). reflexivity.
Qed.

Lemma filter_not_member (ks : list string) :
  filter (fun k => negb (I18n.setHas ks k)) ks = [].
Proof.
  assert (H : forall l, incl l ks -> filter (fun k => negb (I18n.setHas ks k)) l = []).
  { induction l as [|x l IH]; intros I; simpl; [reflexivity|].
    assert (E : I18n.setHas ks x = true).
    { unfold I18n.setHas. apply existsb_exists. exists x. split.
      - apply I. now left.
      - apply String.eqb_refl. }
    rewrite E. simpl. apply IH. intros y Hy. apply I. now right. }
  apply H, incl_refl.
Qed.

Lemma quotient_bounds (r m : Z) :
  (0 <= m <= r)%Z -> (0 < r)%Z ->
  (0 <= inject_Z (r - m) / inject_Z r)%Q /\ (inject_Z (r - m) / inject_Z r <= 1)%Q.
Proof.
  intros Hm Hr.
  assert (P : (0 < inject_Z r)%Q) by (unfold Qlt; simpl; lia).
  split.
  - apply Qle_shift_div_l; [exact P|]. rewrite Qmult_0_l.
    unfold Qle. simpl. lia.
  - apply Qle_shift_div_r; [exact P|]. rewrite Qmult_1_l.
    unfold Qle. simpl. lia.
Qed.

(** C9. [translationProgress(X, Y)] is the quotient of the reference keys
    that are not missing by the reference keys; it lies between 0 and 1, it
    is 1 when [X] and [Y] name the same locale, and it is 1 when the
    reference locale has no key. *)
Theorem translationProgress_bounds :
  forall (self : I18n.state) (X : string) (Y : option string),
    let reference := I18n.orDefault self Y in
    let referenceKeys := fst (I18n.resourceKeys self reference) in
    let missing :=
      fst (I18n.missingKeys (snd (I18n.resourceKeys self reference)) X (Some reference)) in
    let progress := fst (I18n.translationProgress self X Y) in
    (0 <= progress)%Q /\ (progress <= 1)%Q
    /\ (referenceKeys = [] -> progress = 1%Q)
    /\ (referenceKeys <> [] ->
        progress = (inject_Z (Z.of_nat (length referenceKeys) - Z.of_nat (length missing))
                    / inject_Z (Z.of_nat (length referenceKeys)))%Q)
    /\ (X = reference -> (progress == 1)%Q)
    /\ (full (normalizeLocale X) = full (normalizeLocale reference) -> (progress == 1)%Q).
Proof.
  intros self X Y reference referenceKeys missing progress.
  assert (Shape :
    progress =
    if Z.eqb (Z.of_nat (length referenceKeys)) 0 then 1%Q
    else (inject_Z (Z.of_nat (length referenceKeys) - Z.of_nat (length missing))
          / inject_Z (Z.of_nat (length referenceKeys)))%Q).
  { subst progress missing referenceKeys. unfold I18n.translationProgress.
    fold reference.
    destruct (I18n.resourceKeys self reference) as [ks self1]. cbn [fst snd].
    destruct (Z.eqb (Z.of_nat (length ks)) 0); [reflexivity|].
    destruct (I18n.missingKeys self1 X (Some reference)) as [ms self2]. reflexivity. }
  pose proof (resourceKeys_caches self reference) as Cached. fold referenceKeys in Cached.
  pose proof (missingKeys_filter _ X reference _ Cached) as M. fold missing in M.
  assert (Le : (length missing <= length referenceKeys)%nat).
  { rewrite M. apply filter_length_le. }
  assert (Same : full (normalizeLocale X) = full (normalizeLocale reference) ->
                 missing = []).
  { intros E. rewrite M. rewrite <- E in Cached.
    rewrite (resourceKeys_hit _ _ _ Cached). apply filter_not_member. }
  assert (One : missing = [] -> (progress == 1)%Q).
  { intros E. rewrite Shape, E. simpl length.
    destruct (Z.eqb_spec (Z.of_nat (length referenceKeys)) 0) as [|NZ]; [reflexivity|].
    rewrite Z.sub_0_r. apply Qmult_inv_r.
    unfold Qeq. simpl. lia. }
  repeat split.
  - rewrite Shape.
    destruct (Z.eqb_spec (Z.of_nat (length referenceKeys)) 0); [discriminate|].
    apply quotient_bounds; lia.
  - rewrite Shape.
    destruct (Z.eqb_spec (Z.of_nat (length referenceKeys)) 0); [discriminate|].
    apply quotient_bounds; lia.
  - intros E. rewrite Shape, E. reflexivity.
  - intros N. rewrite Shape.
    destruct (Z.eqb_spec (Z.of_nat (length referenceKeys)) 0) as [Z0|]; [|reflexivity].
    destruct referenceKeys; [congruence | discriminate Z0].
  - intros ->. apply One, Same. reflexivity.
  - intros E. apply One, Same, E.
Qed.

Lemma translationProgress_bounds_witness :
  "ru" = I18n.orDefault
           (Examples.loaded Examples.russianDefault
              [("en", Examples.en); ("ru", Examples.ru)]) None
  /\ (fst (I18n.translationProgress
             (Examples.loaded Examples.russianDefault
                [("en", Examples.en); ("ru", Examples.ru)]) "ru" None) == 1)%Q.
Proof.
  split; [reflexivity|].
  pose proof (translationProgress_bounds
                (Examples.loaded Examples.russianDefault
                   [("en", Examples.en); ("ru", Examples.ru)]) "ru" None) as H.
  cbv zeta in H. destruct H as [_ [_ [_ [_ [H _]]]]].
  exact (H eq_refl).
Defined.

Example translationProgress_ex :
  fst (I18n.translationProgress
         (Examples.loaded Examples.defaults [("en", Examples.en); ("ru", Examples.ru)])
         "ru" (Some "en")) = (1 # 3)%Q
  /\ fst (I18n.missingKeys
            (Examples.loaded Examples.defaults [("en", Examples.en); ("ru", Examples.ru)])
            "ru" (Some "en")) = ["greeting"; "cart.title"].
Proof. split; reflexivity. Qed.

(* ================================================================= *)
(** ** Pluralization *)


Lemma pluralize_result (st : Pluralize.state) (number : Z)
    (forms : list Pluralize.Form) (langCode : option string) :
  fst (Pluralize.pluralize st number forms langCode) =
  match selectedForm forms (Pluralize.pluralRules (selectedRule langCode) number) with
  | Some (Pluralize.Literal s) =>
      if JsString.isEmpty s then JsString.ofZ number
      else (JsString.ofZ number ++ " " ++ s)%string
  | Some (Pluralize.Computed f) => f number
  | None => JsString.ofZ number
  end.
Proof.
  unfold Pluralize.pluralize, selectedForm, selectedRule.
  set (rule := match Obj.get _ Pluralize.langToRule with Some r => r | None => _ end).
  destruct (match Pluralize.formAt forms (Pluralize.pluralRules rule number) with
            | Some f => Some f
            | None => Pluralize.lastForm forms
            end) as [[s|f]|]; simpl; [destruct (JsString.isEmpty s)| |]; reflexivity.
Qed.




Example pluralize_russian_ex :
  List.map (fun n => fst (Pluralize.pluralize
                            {| Pluralize.warned := []; Pluralize.console := [] |} n
                            [Pluralize.Literal "yabloko"; Pluralize.Literal "yabloka";
                             Pluralize.Literal "yablok"] (Some "ru_RU")))
           [1; 3; 5; 11; 21; 112; -2]%Z
  = ["1 yabloko"; "3 yabloka"; "5 yablok"; "11 yablok"; "21 yabloko"; "112 yablok";
     "-2 yablok"].
Proof. reflexivity. Qed.

Example pluralize_arabic_ex :
  List.map (Pluralize.pluralRules Pluralize.arabic) [0; 1; 2; 3; 10; 11; 99; 100; 111]%Z
  = [0; 1; 2; 3; 3; 4; 4; 3; 4]%Z.
Proof. reflexivity. Qed.

(** An unknown language falls back to the English rule and is reported
    once. *)
Example pluralize_unknown_language_ex :
  let first := Pluralize.pluralize {| Pluralize.warned := []; Pluralize.console := [] |}
                 2 [Pluralize.Literal "item"; Pluralize.Computed (fun n => "many")]
                 (Some "xx-YY") in
  let second := Pluralize.pluralize (snd first) 1
                  [Pluralize.Literal "item"; Pluralize.Computed (fun n => "many")]
                  (Some "xx-YY") in
  fst first = "many" /\ fst second = "1 item"
  /\ Pluralize.warned (snd second) = ["xx-yy"]
  /\ List.length (Pluralize.console (snd second)) = 1.
Proof. repeat split. Qed.

(* ================================================================= *)
(** * Further properties *)

(* ================================================================= *)
(** ** Pluralization: rule families, language codes, warnings *)

(** X1. The index a rule family computes for an integer count is
    zero-based and below the number of forms of the family, so a caller who
    supplies that many forms always gets the form at the index itself,
    never the last form by default. The bound is reached: each family
    uses its last form for some count. For the Arabic family the bound is
    five: its sixth form is never selected. *)
Theorem pluralRules_within_family :
  forall (ruleKey : Pluralize.PluralRuleKey) (n : Z) (forms : list Pluralize.Form),
    (0 <= Pluralize.pluralRules ruleKey n < familySize ruleKey)%Z
    /\ ((familySize ruleKey <= Z.of_nat (length forms))%Z ->
        exists form,
          nth_error forms (Z.to_nat (Pluralize.pluralRules ruleKey n)) = Some form
          /\ selectedForm forms (Pluralize.pluralRules ruleKey n) = Some form)
    /\ (exists m : Z, Pluralize.pluralRules ruleKey m = (familySize ruleKey - 1)%Z).
Proof.
  intros ruleKey n forms.
  assert (Range : (0 <= Pluralize.pluralRules ruleKey n < familySize ruleKey)%Z).
  { assert (Neg : (n <= 0 -> Z.rem n 100 <= 0)%Z) by (apply Z.rem_nonpos; lia).
    assert (Pos : (0 <= n -> Z.rem n 100 <= n)%Z) by (intros; apply Z.rem_le; lia).
    assert (Lt : (0 <= n -> Z.rem n 100 < 100)%Z)
      by (intros; apply Z.rem_bound_pos; lia).
    destruct ruleKey; unfold Pluralize.pluralRules, familySize;
      repeat match goal with
             | |- context [if ?b then _ else _] => destruct b eqn:?
             end; lia. }
  split; [exact Range|]. split.
  - intros Enough.
    destruct (nth_error forms (Z.to_nat (Pluralize.pluralRules ruleKey n)))
      as [form|] eqn:E.
    + exists form. split; [reflexivity|].
      unfold selectedForm, Pluralize.formAt.
      destruct (Z.ltb_spec (Pluralize.pluralRules ruleKey n) 0); [lia|].
      now rewrite E.
    + apply nth_error_None in E. lia.
  - destruct ruleKey;
      [exists 2%Z | exists 2%Z | exists 5%Z | exists 5%Z | exists 5%Z
       | exists 2%Z | exists 0%Z | exists 11%Z]; reflexivity.
Qed.

Lemma pluralRules_within_family_witness :
  (familySize Pluralize.russian
   <= Z.of_nat (length [Pluralize.Literal "yabloko"; Pluralize.Literal "yabloka";
                        Pluralize.Literal "yablok"]))%Z
  /\ exists form,
       nth_error [Pluralize.Literal "yabloko"; Pluralize.Literal "yabloka";
                  Pluralize.Literal "yablok"]
                 (Z.to_nat (Pluralize.pluralRules Pluralize.russian 12)) = Some form
       /\ selectedForm [Pluralize.Literal "yabloko"; Pluralize.Literal "yabloka";
                        Pluralize.Literal "yablok"]
                       (Pluralize.pluralRules Pluralize.russian 12) = Some form.
Proof.
  assert (Enough : (familySize Pluralize.russian
                    <= Z.of_nat (length [Pluralize.Literal "yabloko";
                                         Pluralize.Literal "yabloka";
                                         Pluralize.Literal "yablok"]))%Z)
    by (vm_compute; discriminate).
  split; [exact Enough|].
  exact (proj1 (proj2 (pluralRules_within_family Pluralize.russian 12 _)) Enough).
Defined.

Lemma selectedRule_normalized (langCode : string) :
  selectedRule (Some (Pluralize.normalizeLang langCode)) = selectedRule (Some langCode).
Proof. unfold selectedRule. now rewrite normalizeLang_idempotent. Qed.

Lemma pluralize_state (st : Pluralize.state) (number : Z)
    (forms : list Pluralize.Form) (langCode : string) :
  snd (Pluralize.pluralize st number forms (Some langCode)) =
  if negb (supportedLanguage langCode)
     && negb (existsb (String.eqb (Pluralize.normalizeLang langCode)) (Pluralize.warned st))
  then {| Pluralize.warned := Pluralize.warned st ++ [Pluralize.normalizeLang langCode];
          Pluralize.console :=
            Pluralize.console st ++
            [("i18n::pluralize: Unsupported language " ++ Pluralize.quote ++ langCode
              ++ Pluralize.quote ++ ", fallback to " ++ Pluralize.quote
              ++ Pluralize.ruleName (selectedRule (Some langCode)) ++ Pluralize.quote)%string] |}
  else st.
Proof.
  unfold Pluralize.pluralize, supportedLanguage, selectedRule.
  rewrite negb_orb.
  set (rule := match Obj.get _ Pluralize.langToRule with Some r => r | None => _ end).
  set (warn := negb _ && negb _ && negb _).
  destruct warn;
    destruct (Pluralize.formMissing _); try reflexivity;
    destruct (match Pluralize.formAt forms _ with Some f => Some f | None => _ end)
      as [[|]|]; reflexivity.
Qed.

(** X2. The language code is read up to normalization: the code as given
    and its normalized form (trimmed, lower-cased, hyphens for underscores)
    select the same rule family and give the same string. *)
Theorem pluralize_normalizes_language :
  forall (st : Pluralize.state) (number : Z) (forms : list Pluralize.Form)
         (langCode : string),
    selectedRule (Some (Pluralize.normalizeLang langCode)) = selectedRule (Some langCode)
    /\ fst (Pluralize.pluralize st number forms (Some (Pluralize.normalizeLang langCode)))
       = fst (Pluralize.pluralize st number forms (Some langCode)).
Proof.
  intros st number forms langCode.
  split; [apply selectedRule_normalized|].
  now rewrite !pluralize_result, selectedRule_normalized.
Qed.

Lemma existsb_eqb_last (x : string) (l : list string) :
  existsb (String.eqb x) (l ++ [x]) = true.
Proof.
  rewrite existsb_app. simpl. rewrite String.eqb_refl.
  now rewrite orb_true_r.
Qed.

(** X3. A language is reported at most once. A call for a registered
    language leaves the module state as it is. A call for an unregistered
    one adds the normalized code to [warned] and one line to the console,
    unless the code is in [warned] already; after it, another call for any
    code with the same normalized form, whatever the count and the forms,
    changes nothing. *)
Theorem pluralize_warns_once :
  forall (st : Pluralize.state) (n n' : Z) (forms forms' : list Pluralize.Form)
         (langCode langCode' : string),
    let st1 := snd (Pluralize.pluralize st n forms (Some langCode)) in
    (supportedLanguage langCode = true -> st1 = st)
    /\ (supportedLanguage langCode = false ->
        existsb (String.eqb (Pluralize.normalizeLang langCode)) (Pluralize.warned st1) = true)
    /\ (length (Pluralize.console st1) <= S (length (Pluralize.console st)))%nat
    /\ (Pluralize.normalizeLang langCode' = Pluralize.normalizeLang langCode ->
        snd (Pluralize.pluralize st1 n' forms' (Some langCode')) = st1).
Proof.
  intros st n n' forms forms' langCode langCode' st1.
  assert (Warned : supportedLanguage langCode = false ->
                   existsb (String.eqb (Pluralize.normalizeLang langCode))
                           (Pluralize.warned st1) = true).
  { intros U. subst st1. rewrite pluralize_state, U. simpl.
    destruct (existsb _ (Pluralize.warned st)) eqn:W; simpl; [exact W|].
    apply existsb_eqb_last. }
  repeat split.
  - intros S. subst st1. rewrite pluralize_state, S. reflexivity.
  - exact Warned.
  - subst st1. rewrite pluralize_state.
    destruct (negb _ && negb _); simpl; [|lia].
    rewrite length_app. simpl. lia.
  - intros Same. rewrite pluralize_state.
    assert (S' : supportedLanguage langCode' = supportedLanguage langCode).
    { unfold supportedLanguage. now rewrite Same. }
    rewrite S', Same.
    destruct (supportedLanguage langCode) eqn:S; [reflexivity|].
    rewrite (Warned eq_refl). reflexivity.
Qed.

Lemma pluralize_warns_once_witness :
  supportedLanguage "xx-YY" = false
  /\ existsb (String.eqb (Pluralize.normalizeLang "xx-YY"))
             (Pluralize.warned
                (snd (Pluralize.pluralize
                        {| Pluralize.warned := []; Pluralize.console := [] |}
                        2 [Pluralize.Literal "item"] (Some "xx-YY")))) = true.
Proof.
  split; [reflexivity|].
  exact (proj1 (proj2 (pluralize_warns_once
                         {| Pluralize.warned := []; Pluralize.console := [] |}
                         2 2 [Pluralize.Literal "item"] [] "xx-YY" "xx-YY")) eq_refl).
Defined.

(** X4. The table [langToRule] holds every language of [mapping] under its
    own family: no language is listed under two families, so the order in
    which the loops fill the table does not matter, and the listed codes
    are in normal form already. Every language of the table is therefore
    supported, and selects the family it is listed under. *)
Theorem langToRule_follows_mapping :
  forall (ruleKey : Pluralize.PluralRuleKey) (langs : list string) (lang : string),
    In (ruleKey, langs) Pluralize.mapping -> In lang langs ->
    Pluralize.normalizeLang lang = lang
    /\ Obj.get lang Pluralize.langToRule = Some ruleKey
    /\ selectedRule (Some lang) = ruleKey
    /\ supportedLanguage lang = true.
Proof.
  intros ruleKey langs lang InMapping InLangs.
  assert (Q : forall r, Pluralize.ruleName r = Pluralize.ruleName ruleKey -> r = ruleKey)
    by (intros r; destruct r, ruleKey; simpl; intros E; try reflexivity; discriminate E).
  unfold Pluralize.mapping in InMapping. simpl in InMapping.
  repeat (destruct InMapping as [E|InMapping];
          [injection E as <- <-; simpl in InLangs;
           repeat (destruct InLangs as [<-|InLangs]; [repeat split|]);
           try contradiction|]).
  contradiction.
Qed.

Lemma langToRule_follows_mapping_witness :
  In (Pluralize.french, ["fr"; "tl"; "pt-br"]) Pluralize.mapping
  /\ In "pt-br" ["fr"; "tl"; "pt-br"]
  /\ selectedRule (Some "pt-br") = Pluralize.french.
Proof.
  assert (M : In (Pluralize.french, ["fr"; "tl"; "pt-br"]) Pluralize.mapping)
    by (simpl; tauto).
  assert (L : In "pt-br" ["fr"; "tl"; "pt-br"]) by (simpl; tauto).
  split; [exact M|]. split; [exact L|].
  exact (proj1 (proj2 (proj2 (langToRule_follows_mapping _ _ _ M L)))).
Defined.

(* ================================================================= *)
(** ** Template data: precedence and binding *)

Lemma distinct_NoDup (ks : list string) : distinct ks = true <-> NoDup ks.
Proof.
  induction ks as [|k rest IH]; simpl.
  - split; [constructor | reflexivity].
  - rewrite andb_true_iff, negb_true_iff, IH. split.
    + intros [N D]. constructor; [|exact D].
      intros I. assert (E : existsb (String.eqb k) rest = true).
      { apply existsb_exists. exists k. split; [exact I | apply String.eqb_refl]. }
      congruence.
    + intros ND. inversion ND as [|? ? N D]; subst. split; [|exact D].
      destruct (existsb (String.eqb k) rest) eqn:E; [|reflexivity].
      apply existsb_exists in E as [x [I E]]. apply String.eqb_eq in E. now subst.
Qed.

Lemma get_assign (A : Type) (source target : Obj.t A) (k : string) :
  NoDup (Obj.keys source) ->
  Obj.get k (Obj.assign target source) = overriding (Obj.get k target) (Obj.get k source).
Proof.
  unfold Obj.assign. revert target.
  induction source as [|[k0 v0] rest IH]; intros target ND; simpl; [reflexivity|].
  inversion ND as [|? ? N D]; subst. rewrite (IH _ D).
  destruct (String.eqb k k0) eqn:E.
  - apply String.eqb_eq in E. subst k0.
    rewrite (ObjFacts.get_None_notin _ _ _ N). simpl.
    apply ObjFacts.get_set_same.
  - apply String.eqb_neq in E.
    rewrite ObjFacts.get_set_other by congruence. reflexivity.
Qed.

Lemma NoDup_assign (A : Type) (source target : Obj.t A) :
  NoDup (Obj.keys target) -> NoDup (Obj.keys (Obj.assign target source)).
Proof. unfold Obj.assign. apply NoDup_fold_set. Qed.

Lemma get_spread (A : Type) (a b : Obj.t A) (k : string) :
  NoDup (Obj.keys a) -> NoDup (Obj.keys b) ->
  Obj.get k (Obj.assign (Obj.assign [] a) b) = overriding (Obj.get k a) (Obj.get k b).
Proof.
  intros Da Db. rewrite (get_assign _ _ _ k Db), (get_assign _ _ _ k Da). simpl.
  now destruct (Obj.get k a).
Qed.

Lemma get_bindLoop (self : I18nContext.state) (ks : list string) (ctx : TemplateData)
    (k : string) :
  NoDup ks ->
  Obj.get k
    (fold_left
       (fun ctx key =>
          match Obj.get key ctx with
          | Some (DFunction name this) =>
              Obj.set key (bind (receiverOf self) (DFunction name this)) ctx
          | _ => ctx
          end) ks ctx)
  = if existsb (String.eqb k) ks
    then option_map (bind (receiverOf self)) (Obj.get k ctx)
    else Obj.get k ctx.
Proof.
  revert ctx. induction ks as [|x rest IH]; intros ctx ND; simpl; [reflexivity|].
  inversion ND as [|? ? N D]; subst. rewrite (IH _ D).
  assert (Step : forall k',
    Obj.get k' (match Obj.get x ctx with
                | Some (DFunction name this) =>
                    Obj.set x (bind (receiverOf self) (DFunction name this)) ctx
                | _ => ctx
                end)
    = if String.eqb k' x then option_map (bind (receiverOf self)) (Obj.get x ctx)
      else Obj.get k' ctx).
  { intros k'. destruct (String.eqb k' x) eqn:E.
    - apply String.eqb_eq in E. subst k'.
      destruct (Obj.get x ctx) as [[]|] eqn:G; try (rewrite G; reflexivity).
      now rewrite ObjFacts.get_set_same.
    - apply String.eqb_neq in E.
      destruct (Obj.get x ctx) as [[]|] eqn:G; try reflexivity.
      rewrite ObjFacts.get_set_other by congruence. reflexivity. }
  rewrite Step. destruct (String.eqb k x) eqn:E; simpl; [|reflexivity].
  apply String.eqb_eq in E. subst x.
  destruct (existsb (String.eqb k) rest) eqn:X; [|reflexivity].
  apply existsb_exists in X as [y [I Y]]. apply String.eqb_eq in Y. now subst.
Qed.

Lemma get_bindFunctions (self : I18nContext.state) (ctx : TemplateData) (k : string) :
  NoDup (Obj.keys ctx) ->
  Obj.get k (I18nContext.bindFunctions self ctx)
  = option_map (bind (receiverOf self)) (Obj.get k ctx).
Proof.
  intros ND. pose proof (get_bindLoop self (Obj.keys ctx) ctx k ND) as Loop.
  change (fold_left _ (Obj.keys ctx) ctx)
    with (I18nContext.bindFunctions self ctx) in Loop.
  rewrite Loop.
  destruct (existsb (String.eqb k) (Obj.keys ctx)) eqn:X; [reflexivity|].
  destruct (Obj.get k ctx) eqn:G; [|reflexivity].
  apply ObjFacts.get_Some_in in G.
  assert (existsb (String.eqb k) (Obj.keys ctx) = true).
  { apply existsb_exists. exists k. split; [exact G | apply String.eqb_refl]. }
  congruence.
Qed.

(** X5. The data a template is rendered with, for a context made by
    [createContext]: at every key the data of the call comes first, then the
    data of the context, then the [templateData] of the configuration; and
    whatever is found is handed over bound to the context when it is a
    function, unchanged when it is not. *)
Theorem renderData_precedence :
  forall (self : I18n.state) (requested : option string)
         (configData contextData perCall : TemplateData) (k : string),
    templateData (I18n.config self) = Some configData ->
    NoDup (Obj.keys configData) -> NoDup (Obj.keys contextData) ->
    NoDup (Obj.keys perCall) ->
    let ctx := I18n.createContext self requested (Some contextData) in
    Obj.get k (renderData ctx (Some perCall))
    = option_map (bind (receiverOf ctx))
        (overriding (overriding (Obj.get k configData) (Obj.get k contextData))
                    (Obj.get k perCall))
    /\ (forall v, (forall name this, v <> DFunction name this) ->
                  bind (receiverOf ctx) v = v).
Proof.
  intros self requested configData contextData perCall k Cfg Dc Dx Dp ctx.
  split.
  - assert (Held : I18nContext.contextData ctx
                   = Obj.assign (Obj.assign [] configData) contextData).
    { subst ctx. unfold I18n.createContext, I18nContext.new. cbn [I18nContext.contextData].
      now rewrite Cfg. }
    unfold renderData. rewrite Held. cbn [I18nContext.orEmpty].
    rewrite get_bindFunctions by (apply NoDup_assign, NoDup_assign; constructor).
    f_equal.
    rewrite get_spread;
      [| apply NoDup_assign, NoDup_assign; constructor | exact Dp].
    rewrite (get_spread _ _ _ k Dc Dx). reflexivity.
  - intros v NotFunction. destruct v as [| | | | |name this|]; try reflexivity.
    now destruct (NotFunction name this).
Qed.

Lemma renderData_precedence_witness :
  templateData (I18n.config (I18n.new Examples.defaults))
  = Some [("pluralize", DFunction "pluralize" Unbound)]
  /\ NoDup (Obj.keys [("pluralize", DFunction "pluralize" Unbound)])
  /\ NoDup (Obj.keys [("from", DObject [("language_code", DStr "en")])])
  /\ NoDup (Obj.keys [("name", DStr "Ann")])
  /\ Obj.get "pluralize"
       (renderData (I18n.createContext (I18n.new Examples.defaults) (Some "en")
                      (Some [("from", DObject [("language_code", DStr "en")])]))
                   (Some [("name", DStr "Ann")]))
     = Some (DFunction "pluralize" (BoundTo (Some "en") (Some "en"))).
Proof.
  assert (D1 : NoDup (Obj.keys [("pluralize", DFunction "pluralize" Unbound)]))
    by (repeat constructor; simpl; tauto).
  assert (D2 : NoDup (Obj.keys [("from", DObject [("language_code", DStr "en")])]))
    by (repeat constructor; simpl; tauto).
  assert (D3 : NoDup (Obj.keys [("name", DStr "Ann")]))
    by (repeat constructor; simpl; tauto).
  split; [reflexivity|]. split; [exact D1|]. split; [exact D2|]. split; [exact D3|].
  pose proof (renderData_precedence (I18n.new Examples.defaults) (Some "en")
                _ _ _ "pluralize" eq_refl D1 D2 D3) as H.
  cbv zeta in H. destruct H as [H _].
  etransitivity; [exact H | reflexivity].
Defined.


(* ================================================================= *)
(** ** Compiled trees *)

(** Induction on a value, with the hypothesis for every item of an array
    and every property of an object. *)
Lemma value_nested_ind (P : value -> Prop) :
  P VUndefined -> P VNull -> (forall b, P (VBool b)) -> (forall n, P (VNum n)) ->
  (forall s, P (VStr s)) -> (forall f, P (VFn f)) ->
  (forall items, Forall P items -> P (VArr items)) ->
  (forall props, Forall (fun kv => P (snd kv)) props -> P (VObj props)) ->
  forall v, P v.
Proof.
  intros HU HN HB HZ HS HF HA HO. fix IH 1.
  intros [| |b|n|s|f|items|props];
    [exact HU | exact HN | apply HB | apply HZ | apply HS | apply HF | apply HA | apply HO].
  - induction items as [|x rest IHrest]; constructor; [apply IH | exact IHrest].
  - induction props as [|[k x] rest IHrest]; constructor; [apply IH | exact IHrest].
Qed.

Lemma set_fresh (A : Type) (o : Obj.t A) (k : string) (v : A) :
  ~ In k (Obj.keys o) -> Obj.set k v o = o ++ [(k, v)].
Proof.
  induction o as [|[k' v'] rest IH]; simpl; [reflexivity|]. intros N.
  destruct (String.eqb k k') eqn:E.
  - apply String.eqb_eq in E. subst. tauto.
  - rewrite IH by tauto. reflexivity.
Qed.

Lemma set_same (A : Type) (o : Obj.t A) (k : string) (v : A) :
  Obj.get k o = Some v -> Obj.set k v o = o.
Proof.
  induction o as [|[k' v'] rest IH]; simpl; [discriminate|].
  destruct (String.eqb k k') eqn:E.
  - intros [= ->]. reflexivity.
  - intros G. now rewrite IH.
Qed.

Lemma get_In (A : Type) (o : Obj.t A) (k : string) (v : A) :
  NoDup (Obj.keys o) -> In (k, v) o -> Obj.get k o = Some v.
Proof.
  induction o as [|[k' v'] rest IH]; simpl; [tauto|]. intros ND [E|I].
  - injection E as -> ->. now rewrite String.eqb_refl.
  - inversion ND as [|? ? N D]; subst.
    destruct (String.eqb k k') eqn:E.
    + apply String.eqb_eq in E. subst k'.
      destruct N. change k with (fst (k, v)). now apply in_map.
    + now apply IH.
Qed.

Lemma In_get (A : Type) (o : Obj.t A) (k : string) (v : A) :
  Obj.get k o = Some v -> In (k, v) o.
Proof.
  induction o as [|[k' v'] rest IH]; simpl; [discriminate|].
  destruct (String.eqb k k') eqn:E.
  - apply String.eqb_eq in E. subst k'. intros [= ->]. now left.
  - intros G. right. now apply IH.
Qed.

Lemma keys_app (A : Type) (o1 o2 : Obj.t A) :
  Obj.keys (o1 ++ o2) = Obj.keys o1 ++ Obj.keys o2.
Proof. unfold Obj.keys. apply map_app. Qed.

(** Over distinct keys, the loop that fills an object property by property
    lays the properties out in the order of the source. *)
Lemma fold_set_rebuild (A B : Type) (g : B -> A) (l : list (string * B)) (acc : Obj.t A) :
  NoDup (Obj.keys acc ++ List.map fst l) ->
  fold_left (fun out kv => Obj.set (fst kv) (g (snd kv)) out) l acc
  = acc ++ List.map (fun kv => (fst kv, g (snd kv))) l.
Proof.
  revert acc. induction l as [|[k v] rest IH]; intros acc ND; simpl.
  - now rewrite app_nil_r.
  - assert (Fresh : ~ In k (Obj.keys acc)).
    { intros I. apply NoDup_remove_2 in ND. apply ND.
      apply in_or_app. now left. }
    rewrite (set_fresh _ acc k (g v) Fresh), IH.
    + now rewrite <- app_assoc.
    + rewrite keys_app. simpl. rewrite <- app_assoc. exact ND.
Qed.

Lemma forallb_set (A : Type) (p : A -> bool) (o : Obj.t A) (k : string) (v : A) :
  forallb (fun kv => p (snd kv)) o = true -> p v = true ->
  forallb (fun kv => p (snd kv)) (Obj.set k v o) = true.
Proof.
  intros Ho Hv. induction o as [|[k' v'] rest IH]; simpl in *.
  - now rewrite Hv.
  - apply andb_true_iff in Ho as [H1 H2].
    destruct (String.eqb k k'); simpl; rewrite ?Hv, ?H1, ?H2, ?IH; auto.
Qed.

Lemma forallb_get (A : Type) (p : A -> bool) (o : Obj.t A) (k : string) (v : A) :
  forallb (fun kv => p (snd kv)) o = true -> Obj.get k o = Some v -> p v = true.
Proof.
  intros Ho G. apply In_get in G.
  rewrite forallb_forall in Ho. exact (Ho _ G).
Qed.

Lemma distinct_keys_set (A : Type) (o : Obj.t A) (k : string) (v : A) :
  distinct (Obj.keys o) = true -> distinct (Obj.keys (Obj.set k v o)) = true.
Proof. rewrite !distinct_NoDup. apply ObjFacts.NoDup_keys_set. Qed.

Lemma compiledProps_all (p : value -> bool) (c : value -> value)
    (src : list (string * value)) :
  Forall (fun kv => p (c (snd kv)) = true) src ->
  forallb (fun kv => p (snd kv)) (compiledProps src c) = true
  /\ distinct (Obj.keys (compiledProps src c)) = true.
Proof.
  intros All. unfold compiledProps.
  assert (G : forall acc,
             forallb (fun kv => p (snd kv)) acc = true ->
             distinct (Obj.keys acc) = true ->
             forallb (fun kv => p (snd kv))
                     (fold_left (fun out kv => Obj.set (fst kv) (c (snd kv)) out) src acc)
             = true
             /\ distinct (Obj.keys
                            (fold_left (fun out kv => Obj.set (fst kv) (c (snd kv)) out)
                                       src acc)) = true).
  { induction All as [|kv rest Hkv _ IH]; intros acc Ha Da; simpl; [now split|].
    apply IH; [now apply forallb_set | now apply distinct_keys_set]. }
  now apply G.
Qed.

Lemma forallb_mapped (A B : Type) (p : B -> bool) (f : A -> B) (l : list A) :
  forallb p (List.map f l) = forallb (fun x => p (f x)) l.
Proof. induction l as [|x rest IH]; simpl; [reflexivity | now rewrite IH]. Qed.

Lemma compileTemplates_clean_holds :
  forall v : value,
    rawFree (compileTemplates v) = true /\ wellFormed (compileTemplates v) = true.
Proof.
  induction v as [| | | |s| |items IH|props IH] using value_nested_ind;
    try (split; reflexivity).
  - simpl. destruct (JsString.includes _ s); split; reflexivity.
  - simpl. rewrite !forallb_mapped. split; apply forallb_forall; intros x I;
      rewrite Forall_forall in IH; apply (IH x I).
  - rewrite compileTemplates_object.
    destruct (compiledProps_all rawFree compileTemplates props) as [R _].
    { eapply Forall_impl; [|exact IH]. now intros kv [H _]. }
    destruct (compiledProps_all wellFormed compileTemplates props) as [W D].
    { eapply Forall_impl; [|exact IH]. now intros kv [_ H]. }
    split; [exact R|]. cbn [wellFormed]. unfold Obj.keys in D. now rewrite D, W.
Qed.

(** X7. Whatever is given to [compileTemplates], the result holds no raw
    text at any depth, every string has become a template function, and
    every object in it has distinct keys. *)
Theorem compileTemplates_clean :
  forall v : value,
    rawFree (compileTemplates v) = true /\ wellFormed (compileTemplates v) = true.
Proof. exact compileTemplates_clean_holds. Qed.

(** A clean, well-formed value is compiled to itself. *)
Lemma compileTemplates_fixed (v : value) :
  rawFree v = true -> wellFormed v = true -> compileTemplates v = v.
Proof.
  induction v as [| | | |s| |items IH|props IH] using value_nested_ind;
    try reflexivity; simpl.
  - discriminate.
  - intros R W. f_equal. rewrite forallb_forall in R, W.
    rewrite Forall_forall in IH.
    rewrite <- (map_id items) at 2. apply map_ext_in.
    intros x I. apply IH; auto.
  - intros R W. apply andb_true_iff in W as [D W]. f_equal.
    rewrite (fold_set_rebuild _ _ compileTemplates props []);
      [|simpl; now apply distinct_NoDup].
    simpl. rewrite <- (map_id props) at 2. apply map_ext_in.
    intros [k x] I. simpl. f_equal.
    rewrite forallb_forall in R, W. rewrite Forall_forall in IH.
    apply (IH _ I); [apply (R _ I) | apply (W _ I)].
Qed.

(** X8. Compiling is idempotent: a value that went through
    [compileTemplates] comes out of it unchanged, so data that was compiled
    before can be loaded again as it is. *)
Theorem compileTemplates_idempotent :
  forall v : value, compileTemplates (compileTemplates v) = compileTemplates v.
Proof.
  intros v. destruct (compileTemplates_clean_holds v) as [R W].
  now apply compileTemplates_fixed.
Qed.




(* ================================================================= *)
(** ** Deep merge, further *)





Lemma clean_object (props : list (string * value)) :
  clean (VObj props) = true <->
  distinct (Obj.keys props) = true /\ forallb (fun kv => clean (snd kv)) props = true.
Proof.
  unfold clean. cbn [rawFree wellFormed]. unfold Obj.keys.
  rewrite !andb_true_iff, !forallb_forall. split.
  - intros [R [D W]]. split; [exact D|]. intros kv I.
    now rewrite (R kv I), (W kv I).
  - intros [D C]. repeat split; try exact D; intros kv I;
      specialize (C kv I); apply andb_true_iff in C; tauto.
Qed.

Lemma clean_set (o : ResourceTree) (k : string) (v : value) :
  clean (VObj o) = true -> clean v = true -> clean (VObj (Obj.set k v o)) = true.
Proof.
  rewrite !clean_object. intros [D C] Cv. split.
  - now apply distinct_keys_set.
  - now apply (forallb_set _ clean).
Qed.

Lemma clean_mergedValue (bv : value) :
  clean bv = true ->
  forall x : option value,
    (forall v, x = Some v -> clean v = true) -> clean (mergedValue x bv) = true.
Proof.
  induction bv as [| | | | | | |props IH] using value_nested_ind;
    intros Cb x Cx; try (destruct x as [[]|]; exact Cb).
  destruct x as [[| | | | | | |a]|]; try exact Cb.
  cbn [mergedValue]. rewrite deepMerge_loop.
  pose proof (Cx _ eq_refl) as Ca. clear Cx.
  apply clean_object in Cb as [_ Cb]. rewrite forallb_forall in Cb.
  revert a Ca. induction props as [|[k bv] rest IHrest]; intros a Ca; simpl; [exact Ca|].
  inversion IH as [|? ? Hbv Hrest]; subst.
  apply IHrest; [exact Hrest | intros kv I; apply Cb; now right |].
  change (mergeStep a (k, bv)) with (Obj.set k (mergedValue (Obj.get k a) bv) a).
  apply clean_set; [exact Ca|].
  apply Hbv; [apply (Cb (k, bv)); now left|].
  intros v G. apply clean_object in Ca as [_ Ca].
  exact (forallb_get _ clean a k v Ca G).
Qed.

Lemma deepMerge_clean_holds :
  forall a b : ResourceTree,
    clean (VObj a) = true -> clean (VObj b) = true ->
    clean (VObj (deepMerge a b)) = true
    /\ rawFree (VObj (deepMerge a b)) = true
    /\ NoDup (Obj.keys (deepMerge a b)).
Proof.
  intros a b Ca Cb.
  assert (C : clean (VObj (deepMerge a b)) = true).
  { apply (clean_mergedValue (VObj b) Cb (Some (VObj a))). now intros v [= <-]. }
  split; [exact C|]. split.
  - unfold clean in C. apply andb_true_iff in C. tauto.
  - apply clean_object in C as [D _]. now apply distinct_NoDup.
Qed.

(** X11. A deep merge of two compiled trees is a compiled tree: it holds no
    raw text and the keys of each of its objects are distinct. *)
Theorem deepMerge_clean :
  forall a b : ResourceTree,
    clean (VObj a) = true -> clean (VObj b) = true ->
    clean (VObj (deepMerge a b)) = true
    /\ rawFree (VObj (deepMerge a b)) = true
    /\ NoDup (Obj.keys (deepMerge a b)).
Proof. exact deepMerge_clean_holds. Qed.

Lemma deepMerge_clean_witness :
  clean (VObj [("menu", VObj [("title", VFn (ConstFn "Menu"))])]) = true
  /\ clean (VObj [("menu", VObj [("back", VFn (ConstFn "Back"))])]) = true
  /\ clean (VObj (deepMerge [("menu", VObj [("title", VFn (ConstFn "Menu"))])]
                            [("menu", VObj [("back", VFn (ConstFn "Back"))])])) = true.
Proof.
  split; [reflexivity|]. split; [reflexivity|].
  exact (proj1 (deepMerge_clean [("menu", VObj [("title", VFn (ConstFn "Menu"))])]
                                [("menu", VObj [("back", VFn (ConstFn "Back"))])]
                                eq_refl eq_refl)).
Defined.

Lemma mergeLoop_fresh (l acc : ResourceTree) :
  NoDup (Obj.keys acc ++ Obj.keys l) -> fold_left mergeStep l acc = acc ++ l.
Proof.
  revert acc. induction l as [|[k v] rest IH]; intros acc ND; simpl.
  - now rewrite app_nil_r.
  - assert (Fresh : ~ In k (Obj.keys acc)).
    { intros I. apply NoDup_remove_2 in ND. apply ND. apply in_or_app. now left. }
    change (mergeStep acc (k, v)) with (Obj.set k (mergedValue (Obj.get k acc) v) acc).
    rewrite (ObjFacts.get_None_notin _ _ _ Fresh).
    replace (mergedValue None v) with v by now destruct v.
    rewrite (set_fresh _ acc k v Fresh), IH.
    + now rewrite <- app_assoc.
    + rewrite keys_app. simpl. rewrite <- app_assoc. exact ND.
Qed.

Lemma deepMerge_into_empty (b : ResourceTree) :
  NoDup (Obj.keys b) -> deepMerge [] b = b.
Proof. intros ND. rewrite deepMerge_loop. now apply mergeLoop_fresh. Qed.

Lemma mergeLoop_settled (l out : ResourceTree) :
  (forall k bv, In (k, bv) l ->
                exists cur, Obj.get k out = Some cur /\ mergedValue (Some cur) bv = cur) ->
  fold_left mergeStep l out = out.
Proof.
  induction l as [|[k bv] rest IH]; intros Settled; simpl; [reflexivity|].
  destruct (Settled k bv (or_introl eq_refl)) as [cur [G M]].
  change (mergeStep out (k, bv)) with (Obj.set k (mergedValue (Obj.get k out) bv) out).
  rewrite G, M, (set_same _ out k cur G).
  apply IH. intros k' bv' I. apply Settled. now right.
Qed.

Lemma mergedValue_absorbs (bv : value) :
  wellFormed bv = true ->
  forall x : option value, mergedValue (Some (mergedValue x bv)) bv = mergedValue x bv.
Proof.
  induction bv as [| | | | | | |props IH] using value_nested_ind;
    intros W x; try (destruct x as [[]|]; reflexivity).
  cbn [wellFormed] in W. apply andb_true_iff in W as [D W].
  apply distinct_NoDup in D. rewrite forallb_forall in W. rewrite Forall_forall in IH.
  assert (Absorb : forall e, deepMerge (deepMerge e props) props = deepMerge e props).
  { intros e. rewrite (deepMerge_loop (deepMerge e props)).
    apply mergeLoop_settled. intros k bv I.
    exists (mergedValue (Obj.get k e) bv). split.
    - rewrite (get_deepMerge e props k D), (get_In _ props k bv D I). reflexivity.
    - apply (IH _ I). apply (W _ I). }
  assert (Idem : deepMerge props props = props).
  { pose proof (Absorb []) as H.
    now rewrite (deepMerge_into_empty props D) in H. }
  destruct x as [[| | | | | | |a]|]; cbn [mergedValue]; f_equal;
    first [apply Absorb | exact Idem].
Qed.

Lemma delete_idem (A : Type) (o : Obj.t A) (k : string) :
  Obj.delete k (Obj.delete k o) = Obj.delete k o.
Proof.
  induction o as [|[k' v'] rest IH]; simpl; [reflexivity|].
  destruct (String.eqb k k') eqn:E; [exact IH|]. simpl. now rewrite E, IH.
Qed.

Lemma invalidate_idem (self : I18n.state) (language : option string) :
  I18n.invalidate (I18n.invalidate self language) language = I18n.invalidate self language.
Proof.
  destruct language as [l|]; simpl; [|reflexivity].
  destruct (JsString.isEmpty l); [reflexivity|].
  unfold I18n.withKeysCache. simpl. now rewrite delete_idem.
Qed.

(** X12. Merging a tree in a second time changes nothing: the merge of a
    well-formed tree [b] into what a merge of [b] gave is that same tree, and
    [b] merged into itself is [b]. Hence [loadLocale] is idempotent: a
    second call with the same locale and the same data, whatever they are,
    returns as the first did and leaves the instance, its repository and its
    key cache, exactly as the first call left it (a template function
    being identified by the text it was made from). *)
Theorem loadLocale_twice :
  (forall e b : ResourceTree,
      wellFormed (VObj b) = true ->
      deepMerge (deepMerge e b) b = deepMerge e b /\ deepMerge b b = b)
  /\ (forall (self : I18n.state) (languageCode : string) (i18Data : value),
         let first := I18n.loadLocale self languageCode i18Data in
         I18n.loadLocale (snd first) languageCode i18Data = first).
Proof.
  split.
  - intros e b W.
    pose proof (mergedValue_absorbs (VObj b) W) as M.
    split.
    + specialize (M (Some (VObj e))). cbn [mergedValue] in M. now injection M.
    + specialize (M None). cbn [mergedValue] in M. now injection M.
  - intros self languageCode i18Data first. subst first.
    destruct i18Data as [| | | | | | |raw];
      try (unfold I18n.loadLocale; simpl; reflexivity).
    + unfold I18n.loadLocale. simpl. now destruct (JsString.includes _ _).
    + rewrite !loadLocale_object. cbv zeta. cbn [fst snd]. f_equal.
      rewrite repository_invalidate. cbn [I18n.repository I18n.withRepository].
      rewrite ObjFacts.get_set_same.
      set (language := full (normalizeLocale languageCode)).
      set (existing := match Obj.get language (I18n.repository self) with
                       | Some tree0 => tree0
                       | None => []
                       end).
      set (A := compiledProps raw compileTemplates).
      assert (W : wellFormed (VObj A) = true).
      { destruct (compileTemplates_clean_holds (VObj raw)) as [_ W]. exact W. }
      pose proof (mergedValue_absorbs (VObj A) W (Some (VObj existing))) as M.
      cbn [mergedValue] in M. injection M as M. rewrite M.
      rewrite (set_same _ (Obj.set language (deepMerge existing A) (I18n.repository self))
                        language (deepMerge existing A))
        by apply ObjFacts.get_set_same.
      destruct self as [repo cfg cache]. unfold I18n.invalidate, I18n.withRepository,
        I18n.withKeysCache. cbn [I18n.repository I18n.config I18n.keysCache].
      destruct (JsString.isEmpty language); [reflexivity|].
      cbn [I18n.repository I18n.config I18n.keysCache].
      now rewrite delete_idem.
Qed.

Lemma loadLocale_twice_witness :
  wellFormed (VObj [("menu", VObj [("title", VFn (ConstFn "Menu"))])]) = true
  /\ deepMerge [("menu", VObj [("title", VFn (ConstFn "Menu"))])]
               [("menu", VObj [("title", VFn (ConstFn "Menu"))])]
     = [("menu", VObj [("title", VFn (ConstFn "Menu"))])].
Proof.
  split; [reflexivity|].
  exact (proj2 (proj1 loadLocale_twice []
                      [("menu", VObj [("title", VFn (ConstFn "Menu"))])] eq_refl)).
Defined.

(* ================================================================= *)
(** ** The instance: what every sequence of calls preserves *)

Lemma get_delete_same (A : Type) (o : Obj.t A) (k : string) :
  Obj.get k (Obj.delete k o) = None.
Proof.
  induction o as [|[k' v'] rest IH]; simpl; [reflexivity|].
  destruct (String.eqb k k') eqn:E; [exact IH|]. simpl. now rewrite E.
Qed.

Lemma get_delete_other (A : Type) (o : Obj.t A) (k k' : string) :
  k <> k' -> Obj.get k' (Obj.delete k o) = Obj.get k' o.
Proof.
  intros N. induction o as [|[k0 v0] rest IH]; simpl; [reflexivity|].
  destruct (String.eqb k k0) eqn:E; simpl.
  - apply String.eqb_eq in E. subst k0.
    destruct (String.eqb k' k) eqn:E'; [|exact IH].
    apply String.eqb_eq in E'. congruence.
  - now rewrite IH.
Qed.

Lemma keys_delete (A : Type) (o : Obj.t A) (k : string) :
  Obj.keys (Obj.delete k o) = filter (fun k' => negb (String.eqb k k')) (Obj.keys o).
Proof.
  induction o as [|[k' v'] rest IH]; simpl; [reflexivity|].
  destruct (String.eqb k k'); simpl; now rewrite IH.
Qed.

Lemma In_delete (A : Type) (o : Obj.t A) (k : string) (kv : string * A) :
  In kv (Obj.delete k o) -> In kv o.
Proof.
  induction o as [|[k' v'] rest IH]; simpl; [tauto|].
  destruct (String.eqb k k'); simpl; tauto.
Qed.

Lemma In_set (A : Type) (o : Obj.t A) (k : string) (v : A) (kv : string * A) :
  In kv (Obj.set k v o) -> kv = (k, v) \/ In kv o.
Proof.
  induction o as [|[k' v'] rest IH]; simpl.
  - intros [<-|[]]. now left.
  - destruct (String.eqb k k') eqn:E; simpl.
    + apply String.eqb_eq in E. subst k'. intros [<-|I]; auto.
    + intros [<-|I]; auto. destruct (IH I); auto.
Qed.

Lemma toLowerCase_normalized (code : string) :
  JsString.toLowerCase (full (normalizeLocale code)) = full (normalizeLocale code).
Proof.
  unfold normalizeLocale, JsString.toLowerCase, JsString.replaceUnderscores. cbn [full].
  rewrite !JsStringFacts.map_map. apply JsStringFacts.map_ext. intros c.
  now rewrite JsStringFacts.lower_hyphenate, JsStringFacts.lowerChar_idem.
Qed.

(** What [invalidate] leaves in the cache for a normalized tag. *)
Lemma get_invalidated (self : I18n.state) (code tag : string) (keys : list string) :
  Obj.get tag (I18n.keysCache (I18n.invalidate self (Some (full (normalizeLocale code)))))
  = Some keys ->
  tag <> full (normalizeLocale code) /\ Obj.get tag (I18n.keysCache self) = Some keys.
Proof.
  unfold I18n.invalidate.
  destruct (JsString.isEmpty (full (normalizeLocale code))); [discriminate|].
  rewrite toLowerCase_normalized. cbn [I18n.keysCache I18n.withKeysCache].
  intros G. assert (N : tag <> full (normalizeLocale code)).
  { intros ->. now rewrite get_delete_same in G. }
  split; [exact N|]. rewrite get_delete_other in G by congruence. exact G.
Qed.

Lemma repository_resourceKeys (self : I18n.state) (languageCode : string) :
  I18n.repository (snd (I18n.resourceKeys self languageCode)) = I18n.repository self
  /\ I18n.config (snd (I18n.resourceKeys self languageCode)) = I18n.config self.
Proof.
  unfold I18n.resourceKeys.
  now destruct (Obj.get _ (I18n.keysCache self)).
Qed.

Lemma missingKeys_unfold (self : I18n.state) (interest : string) (reference : option string) :
  I18n.missingKeys self interest reference =
  let first := I18n.resourceKeys self interest in
  let second := I18n.resourceKeys (snd first) (I18n.orDefault self reference) in
  (filter (fun k => negb (I18n.setHas (fst first) k)) (fst second), snd second).
Proof.
  unfold I18n.missingKeys.
  destruct (I18n.resourceKeys self interest) as [ki s1]. cbn [fst snd].
  now destruct (I18n.resourceKeys s1 _).
Qed.

Lemma translationProgress_state (self : I18n.state) (interest : string)
    (reference : option string) :
  snd (I18n.translationProgress self interest reference) =
  let first := I18n.resourceKeys self (I18n.orDefault self reference) in
  if Z.eqb (Z.of_nat (length (fst first))) 0 then snd first
  else snd (I18n.missingKeys (snd first) interest (Some (I18n.orDefault self reference))).
Proof.
  unfold I18n.translationProgress.
  destruct (I18n.resourceKeys self _) as [kr s1]. cbn [fst snd].
  destruct (Z.eqb _ 0); [reflexivity|].
  now destruct (I18n.missingKeys s1 interest _).
Qed.

(** The methods that only read the repository. *)
Lemma readers_keep (P : I18n.state -> Prop) :
  (forall self languageCode, P self -> P (snd (I18n.resourceKeys self languageCode))) ->
  forall self interest reference,
    P self ->
    P (snd (I18n.missingKeys self interest reference))
    /\ P (snd (I18n.overspecifiedKeys self interest reference))
    /\ P (snd (I18n.translationProgress self interest reference)).
Proof.
  intros Keys.
  assert (Missing : forall self interest reference,
             P self -> P (snd (I18n.missingKeys self interest reference))).
  { intros self interest reference H. rewrite missingKeys_unfold. cbn [snd].
    now apply Keys, Keys. }
  intros self interest reference H. split; [now apply Missing|]. split.
  - unfold I18n.overspecifiedKeys. now apply Missing.
  - rewrite translationProgress_state. cbv zeta.
    destruct (Z.eqb _ 0); [now apply Keys | now apply Missing, Keys].
Qed.

Lemma treeOf_resourceKeys (self : I18n.state) (languageCode tag : string) :
  treeOf (snd (I18n.resourceKeys self languageCode)) tag = treeOf self tag.
Proof. unfold treeOf. now rewrite (proj1 (repository_resourceKeys self languageCode)). Qed.

Lemma coherent_resourceKeys (self : I18n.state) (languageCode : string) :
  cacheCoherent self -> cacheCoherent (snd (I18n.resourceKeys self languageCode)).
Proof.
  intros C tag keys. unfold freshKeys. rewrite treeOf_resourceKeys.
  unfold I18n.resourceKeys.
  destruct (Obj.get (full (normalizeLocale languageCode)) (I18n.keysCache self)) eqn:G;
    cbn [snd I18n.keysCache I18n.withKeysCache]; [apply C|].
  destruct (String.eqb tag (full (normalizeLocale languageCode))) eqn:E.
  - apply String.eqb_eq in E. subst tag. rewrite ObjFacts.get_set_same.
    now intros [= <-].
  - apply String.eqb_neq in E. rewrite ObjFacts.get_set_other by congruence. apply C.
Qed.

Lemma coherent_loadLocale (self : I18n.state) (languageCode : string) (i18Data : value) :
  cacheCoherent self -> cacheCoherent (snd (I18n.loadLocale self languageCode i18Data)).
Proof.
  intros C. unfold I18n.loadLocale.
  destruct (compileTemplates i18Data); try exact C.
  cbn [snd]. intros tag keys G.
  apply get_invalidated in G as [N G].
  rewrite (C _ _ G). unfold freshKeys, treeOf.
  rewrite repository_invalidate. cbn [I18n.repository I18n.withRepository].
  rewrite ObjFacts.get_set_other by congruence. reflexivity.
Qed.

Lemma coherent_resetLocale (self : I18n.state) (languageCode : option string) :
  cacheCoherent self -> cacheCoherent (I18n.resetLocale self languageCode).
Proof.
  intros C. unfold I18n.resetLocale.
  destruct languageCode as [code|]; [|intros tag keys; discriminate].
  destruct (JsString.isEmpty code); [intros tag keys; discriminate|].
  intros tag keys G. apply get_invalidated in G as [N G].
  cbn [I18n.keysCache I18n.withRepository] in G.
  rewrite (C _ _ G). unfold freshKeys, treeOf.
  rewrite repository_invalidate. cbn [I18n.repository I18n.withRepository].
  rewrite get_delete_other by congruence. reflexivity.
Qed.

Lemma resourceKeys_never_stale_holds :
  forall (self : I18n.state) (languageCode : string),
    Reachable self ->
    cacheCoherent self
    /\ fst (I18n.resourceKeys self languageCode)
       = freshKeys self (full (normalizeLocale languageCode))
    /\ I18n.repository (snd (I18n.resourceKeys self languageCode)) = I18n.repository self
    /\ I18n.config (snd (I18n.resourceKeys self languageCode)) = I18n.config self.
Proof.
  intros self languageCode R.
  assert (C : cacheCoherent self).
  { induction R as [options| | | | | |].
    - intros tag keys. discriminate.
    - now apply coherent_loadLocale.
    - now apply coherent_resetLocale.
    - now apply coherent_resourceKeys.
    - now apply (readers_keep cacheCoherent coherent_resourceKeys).
    - now apply (readers_keep cacheCoherent coherent_resourceKeys).
    - now apply (readers_keep cacheCoherent coherent_resourceKeys). }
  split; [exact C|]. split; [|apply repository_resourceKeys].
  unfold I18n.resourceKeys.
  destruct (Obj.get (full (normalizeLocale languageCode)) (I18n.keysCache self)) eqn:G;
    cbn [fst]; [now apply C | reflexivity].
Qed.

(** X13. The key cache is never stale. In every instance reached from a
    new one by calls to its methods, each entry of the cache is what a
    traversal of the current tree gives, so [resourceKeys] returns the keys
    of the tree as it is now, whether it answers from the cache or not, and
    it changes neither the repository nor the configuration. *)
Theorem resourceKeys_never_stale :
  forall (self : I18n.state) (languageCode : string),
    Reachable self ->
    cacheCoherent self
    /\ fst (I18n.resourceKeys self languageCode)
       = freshKeys self (full (normalizeLocale languageCode))
    /\ I18n.repository (snd (I18n.resourceKeys self languageCode)) = I18n.repository self
    /\ I18n.config (snd (I18n.resourceKeys self languageCode)) = I18n.config self.
Proof. exact resourceKeys_never_stale_holds. Qed.

Lemma resourceKeys_never_stale_witness :
  Reachable (snd (I18n.resourceKeys
                    (Examples.loaded Examples.defaults [("en", Examples.en)]) "EN"))
  /\ fst (I18n.resourceKeys
            (snd (I18n.loadLocale
                    (snd (I18n.resourceKeys
                            (Examples.loaded Examples.defaults [("en", Examples.en)]) "EN"))
                    "en" (VObj [("bye", VStr "Bye")])))
            "en")
     = ["greeting"; "menu"; "cart.title"; "bye"].
Proof.
  assert (R : Reachable (snd (I18n.resourceKeys
                                (Examples.loaded Examples.defaults [("en", Examples.en)])
                                "EN"))).
  { apply ReachResourceKeys.
    exact (@ReachLoadLocale (I18n.new Examples.defaults) "en" Examples.en
             (ReachNew Examples.defaults)). }
  split; [exact R|].
  etransitivity;
    [exact (proj1 (proj2 (resourceKeys_never_stale _ "en"
                            (@ReachLoadLocale _ "en" (VObj [("bye", VStr "Bye")]) R))))
    | reflexivity].
Defined.





Lemma sound_loadLocale (self : I18n.state) (languageCode : string) (i18Data : value) :
  repositorySound self -> repositorySound (snd (I18n.loadLocale self languageCode i18Data)).
Proof.
  intros [ND Sound]. unfold I18n.loadLocale.
  destruct (compileTemplates i18Data) as [| | | | | | |tree] eqn:Compiled;
    try (split; assumption).
  cbn [snd]. unfold repositorySound, I18n.availableLocales.
  rewrite repository_invalidate. cbn [I18n.repository I18n.withRepository].
  split; [now apply ObjFacts.NoDup_keys_set|].
  intros tag tree' I. apply In_set in I as [E|I]; [|now apply Sound].
  injection E as -> ->. split; [apply normalizeLocale_full_idempotent|].
  apply deepMerge_clean_holds.
  - destruct (Obj.get _ (I18n.repository self)) as [tree0|] eqn:G; [|reflexivity].
    apply In_get in G. now apply Sound in G.
  - unfold clean. rewrite <- Compiled.
    destruct (compileTemplates_clean_holds i18Data) as [R W]. now rewrite R, W.
Qed.

Lemma sound_resetLocale (self : I18n.state) (languageCode : option string) :
  repositorySound self -> repositorySound (I18n.resetLocale self languageCode).
Proof.
  intros [ND Sound].
  assert (Empty : repositorySound (I18n.invalidate (I18n.withRepository self []) None)).
  { split; [constructor | intros tag tree []]. }
  unfold I18n.resetLocale. destruct languageCode as [code|]; [|exact Empty].
  destruct (JsString.isEmpty code); [exact Empty|].
  unfold repositorySound, I18n.availableLocales.
  rewrite repository_invalidate. cbn [I18n.repository I18n.withRepository].
  split.
  - rewrite keys_delete. now apply NoDup_filter.
  - intros tag tree I. apply In_delete in I. now apply Sound.
Qed.

Lemma sound_resourceKeys (self : I18n.state) (languageCode : string) :
  repositorySound self -> repositorySound (snd (I18n.resourceKeys self languageCode)).
Proof.
  unfold repositorySound, I18n.availableLocales.
  now rewrite (proj1 (repository_resourceKeys self languageCode)).
Qed.

(** X14. In every instance reached from a new one by calls to its methods,
    the locale tags of the repository are distinct and in normal form
    (trimmed, lower-cased, hyphenated), so [availableLocales] lists no
    locale twice; and every stored tree is compiled: it holds no raw text
    at any depth and the keys of each of its objects are distinct. *)
Theorem reachable_repository_sound :
  forall self : I18n.state,
    Reachable self ->
    NoDup (I18n.availableLocales self)
    /\ (forall tag, In tag (I18n.availableLocales self) ->
                    full (normalizeLocale tag) = tag)
    /\ (forall tag tree, Obj.get tag (I18n.repository self) = Some tree ->
                         rawFree (VObj tree) = true /\ wellFormed (VObj tree) = true).
Proof.
  intros self R.
  assert (S : repositorySound self).
  { induction R as [options| | | | | |].
    - split; [constructor | intros tag tree []].
    - now apply sound_loadLocale.
    - now apply sound_resetLocale.
    - now apply sound_resourceKeys.
    - now apply (readers_keep repositorySound sound_resourceKeys).
    - now apply (readers_keep repositorySound sound_resourceKeys).
    - now apply (readers_keep repositorySound sound_resourceKeys). }
  destruct S as [ND Sound]. split; [exact ND|]. split.
  - intros tag I. unfold I18n.availableLocales, Obj.keys in I.
    apply in_map_iff in I as [[tag' tree] [E I]]. simpl in E. subst tag'.
    now apply (Sound tag tree).
  - intros tag tree G. apply In_get in G. apply Sound in G as [_ C].
    unfold clean in C. now apply andb_true_iff in C.
Qed.

Lemma reachable_repository_sound_witness :
  Reachable (Examples.loaded Examples.defaults
               [("en", Examples.en); ("pt_BR", Examples.ptBR)])
  /\ NoDup (I18n.availableLocales
              (Examples.loaded Examples.defaults
                 [("en", Examples.en); ("pt_BR", Examples.ptBR)])).
Proof.
  assert (R : Reachable (Examples.loaded Examples.defaults
                           [("en", Examples.en); ("pt_BR", Examples.ptBR)])).
  { exact (@ReachLoadLocale _ "pt_BR" Examples.ptBR
             (@ReachLoadLocale (I18n.new Examples.defaults) "en" Examples.en
                (ReachNew Examples.defaults))). }
  split; [exact R|].
  exact (proj1 (reachable_repository_sound _ R)).
Defined.



(* ================================================================= *)
(** ** Key coverage, further *)

Lemma resourceKeys_miss (self : I18n.state) (languageCode : string) :
  Obj.get (full (normalizeLocale languageCode)) (I18n.keysCache self) = None ->
  I18n.resourceKeys self languageCode
  = (freshKeys self (full (normalizeLocale languageCode)),
     I18n.withKeysCache self
       (Obj.set (full (normalizeLocale languageCode))
                (freshKeys self (full (normalizeLocale languageCode)))
                (I18n.keysCache self))).
Proof. intros G. unfold I18n.resourceKeys. now rewrite G. Qed.

(** Reading the keys of one locale does not change the keys of another. *)
Lemma resourceKeys_after (self : I18n.state) (first second : string) :
  fst (I18n.resourceKeys (snd (I18n.resourceKeys self first)) second)
  = fst (I18n.resourceKeys self second).
Proof.
  destruct (Obj.get (full (normalizeLocale second)) (I18n.keysCache self))
    as [keys|] eqn:G.
  - rewrite (resourceKeys_hit self second keys G).
    now rewrite (resourceKeys_hit _ second keys (resourceKeys_keeps self first _ _ G)).
  - rewrite (resourceKeys_miss self second G). cbn [fst].
    destruct (Obj.get (full (normalizeLocale first)) (I18n.keysCache self))
      as [keys1|] eqn:G1.
    + rewrite (resourceKeys_hit self first keys1 G1). cbn [snd].
      now rewrite (resourceKeys_miss self second G).
    + rewrite (resourceKeys_miss self first G1). cbn [snd].
      destruct (String.eqb (full (normalizeLocale second)) (full (normalizeLocale first)))
        eqn:E.
      * apply String.eqb_eq in E.
        rewrite (resourceKeys_hit _ second (freshKeys self (full (normalizeLocale first)))).
        -- cbn [fst]. now rewrite E.
        -- cbn [I18n.keysCache I18n.withKeysCache]. rewrite E.
           apply ObjFacts.get_set_same.
      * apply String.eqb_neq in E. rewrite resourceKeys_miss.
        -- reflexivity.
        -- cbn [I18n.keysCache I18n.withKeysCache].
           rewrite ObjFacts.get_set_other by congruence. exact G.
Qed.

Lemma setHas_In (keys : list string) (k : string) :
  I18n.setHas keys k = true <-> In k keys.
Proof.
  unfold I18n.setHas. rewrite existsb_exists. split.
  - intros [x [I E]]. apply String.eqb_eq in E. now subst.
  - intros I. exists k. split; [exact I | apply String.eqb_refl].
Qed.

Lemma missingKeys_exact_holds :
  forall (self : I18n.state) (X Y : string) (k : string),
    fst (I18n.missingKeys self X (Some Y))
    = filter (fun k => negb (I18n.setHas (fst (I18n.resourceKeys self X)) k))
             (fst (I18n.resourceKeys self Y))
    /\ (In k (fst (I18n.missingKeys self X (Some Y))) <->
        In k (fst (I18n.resourceKeys self Y)) /\ ~ In k (fst (I18n.resourceKeys self X)))
    /\ (In k (fst (I18n.overspecifiedKeys self X (Some Y))) <->
        In k (fst (I18n.resourceKeys self X)) /\ ~ In k (fst (I18n.resourceKeys self Y)))
    /\ fst (I18n.missingKeys self X (Some X)) = [].
Proof.
  intros self X Y k.
  assert (Shape : forall A B,
             fst (I18n.missingKeys self A (Some B))
             = filter (fun k => negb (I18n.setHas (fst (I18n.resourceKeys self A)) k))
                      (fst (I18n.resourceKeys self B))).
  { intros A B. rewrite missingKeys_unfold. cbn [fst I18n.orDefault].
    now rewrite resourceKeys_after. }
  assert (Member : forall A B,
             In k (fst (I18n.missingKeys self A (Some B))) <->
             In k (fst (I18n.resourceKeys self B))
             /\ ~ In k (fst (I18n.resourceKeys self A))).
  { intros A B. rewrite Shape, filter_In, negb_true_iff.
    rewrite <- (setHas_In (fst (I18n.resourceKeys self A)) k).
    destruct (I18n.setHas _ k); intuition congruence. }
  split; [apply Shape|]. split; [apply Member|]. split.
  - unfold I18n.overspecifiedKeys. cbn [I18n.orDefault]. apply Member.
  - rewrite Shape. apply filter_not_member.
Qed.

(** X16. [missingKeys(X, Y)] returns the keys of the reference [Y] that
    are not keys of [X], in the order [resourceKeys(Y)] lists them:
    a key is reported exactly when it is a key of [Y] and not of [X].
    [overspecifiedKeys(X, Y)] is the same with the two locales exchanged.
    This holds in every state of the instance, whatever its cache holds. *)
Theorem missingKeys_exact :
  forall (self : I18n.state) (X Y : string) (k : string),
    fst (I18n.missingKeys self X (Some Y))
    = filter (fun k => negb (I18n.setHas (fst (I18n.resourceKeys self X)) k))
             (fst (I18n.resourceKeys self Y))
    /\ (In k (fst (I18n.missingKeys self X (Some Y))) <->
        In k (fst (I18n.resourceKeys self Y)) /\ ~ In k (fst (I18n.resourceKeys self X)))
    /\ (In k (fst (I18n.overspecifiedKeys self X (Some Y))) <->
        In k (fst (I18n.resourceKeys self X)) /\ ~ In k (fst (I18n.resourceKeys self Y)))
    /\ fst (I18n.missingKeys self X (Some X)) = [].
Proof. exact missingKeys_exact_holds. Qed.

Lemma filter_none (A : Type) (f : A -> bool) (l : list A) :
  (forall x, In x l -> f x = false) -> filter f l = [].
Proof.
  induction l as [|x rest IH]; intros H; simpl; [reflexivity|].
  rewrite (H x (or_introl eq_refl)). apply IH. intros y I. apply H. now right.
Qed.

Lemma filter_all (A : Type) (f : A -> bool) (l : list A) :
  (forall x, In x l -> f x = true) -> filter f l = l.
Proof.
  induction l as [|x rest IH]; intros H; simpl; [reflexivity|].
  rewrite (H x (or_introl eq_refl)). f_equal. apply IH. intros y I. apply H. now right.
Qed.

Lemma filter_full_length (A : Type) (f : A -> bool) (l : list A) :
  length (filter f l) = length l -> forall x, In x l -> f x = true.
Proof.
  induction l as [|x rest IH]; simpl; [tauto|]. intros L y I.
  pose proof (filter_length_le f rest) as Le.
  destruct (f x) eqn:E; simpl in L; [|lia].
  destruct I as [<-|I]; [exact E|]. apply IH; [lia | exact I].
Qed.

Lemma quotient_one (r m : Z) :
  (0 < r)%Z -> ((inject_Z (r - m) / inject_Z r == 1)%Q <-> m = 0%Z).
Proof.
  intros Hr.
  assert (NZ : ~ (inject_Z r == 0)%Q) by (unfold Qeq; simpl; lia).
  split.
  - intros E. apply (Qmult_inj_r _ _ _ NZ) in E.
    unfold Qdiv in E. rewrite <- Qmult_assoc, (Qmult_comm (/ _)), Qmult_inv_r in E
      by exact NZ.
    rewrite Qmult_1_r, Qmult_1_l in E. unfold Qeq in E. simpl in E. lia.
  - intros ->. rewrite Z.sub_0_r. now apply Qmult_inv_r.
Qed.

Lemma quotient_zero (r m : Z) :
  (0 < r)%Z -> ((inject_Z (r - m) / inject_Z r == 0)%Q <-> m = r).
Proof.
  intros Hr.
  assert (NZ : ~ (inject_Z r == 0)%Q) by (unfold Qeq; simpl; lia).
  split.
  - intros E. apply (Qmult_inj_r _ _ _ NZ) in E.
    unfold Qdiv in E. rewrite <- Qmult_assoc, (Qmult_comm (/ _)), Qmult_inv_r in E
      by exact NZ.
    rewrite Qmult_1_r, Qmult_0_l in E. unfold Qeq in E. simpl in E. lia.
  - intros ->. rewrite Z.sub_diag. unfold Qdiv. now rewrite Qmult_0_l.
Qed.

Lemma translationProgress_value (self : I18n.state) (X Y : string) :
  fst (I18n.resourceKeys self Y) <> [] ->
  fst (I18n.translationProgress self X (Some Y))
  = (inject_Z (Z.of_nat (length (fst (I18n.resourceKeys self Y)))
               - Z.of_nat (length (fst (I18n.missingKeys
                                          (snd (I18n.resourceKeys self Y)) X (Some Y)))))
     / inject_Z (Z.of_nat (length (fst (I18n.resourceKeys self Y)))))%Q.
Proof.
  intros NonEmpty. unfold I18n.translationProgress. cbn [I18n.orDefault].
  destruct (I18n.resourceKeys self Y) as [keys self1]. cbn [fst snd] in *.
  destruct (Z.eqb_spec (Z.of_nat (length keys)) 0) as [Zero|_].
  - destruct keys; [congruence | discriminate Zero].
  - now destruct (I18n.missingKeys self1 X (Some Y)).
Qed.

(** X17. When the reference locale has keys, the progress is 1 exactly
    when no key of the reference is missing from the locale of interest,
    and 0 exactly when every key of the reference is missing. *)
Theorem translationProgress_extremes :
  forall (self : I18n.state) (X Y : string),
    fst (I18n.resourceKeys self Y) <> [] ->
    ((fst (I18n.translationProgress self X (Some Y)) == 1)%Q <->
     forall k, In k (fst (I18n.resourceKeys self Y)) -> In k (fst (I18n.resourceKeys self X)))
    /\ ((fst (I18n.translationProgress self X (Some Y)) == 0)%Q <->
        forall k, In k (fst (I18n.resourceKeys self Y)) ->
                  ~ In k (fst (I18n.resourceKeys self X))).
Proof.
  intros self X Y NonEmpty.
  pose proof (translationProgress_value self X Y NonEmpty) as Formula.
  set (keysY := fst (I18n.resourceKeys self Y)) in *.
  set (keysX := fst (I18n.resourceKeys self X)).
  set (missing := fst (I18n.missingKeys (snd (I18n.resourceKeys self Y)) X (Some Y))) in *.
  assert (M : missing = filter (fun k => negb (I18n.setHas keysX k)) keysY).
  { subst missing. rewrite (proj1 (missingKeys_exact_holds _ X Y "")).
    subst keysX keysY. now rewrite !resourceKeys_after. }
  assert (Pos : (0 < Z.of_nat (length keysY))%Z) by (destruct keysY; [congruence | simpl; lia]).
  rewrite Formula. split.
  - rewrite (quotient_one _ _ Pos). split.
    + intros L k I.
      assert (E : missing = [])
        by (destruct missing; [reflexivity | simpl in L; lia]).
      rewrite M in E. destruct (I18n.setHas keysX k) eqn:H; [now apply setHas_In|].
      assert (In k (filter (fun k => negb (I18n.setHas keysX k)) keysY))
        by (apply filter_In; now rewrite H).
      rewrite E in *. contradiction.
    + intros All. rewrite M, filter_none; [reflexivity|].
      intros k I. apply negb_false_iff. now apply setHas_In, All.
  - rewrite (quotient_zero _ _ Pos). split.
    + intros L k I N. assert (E : length missing = length keysY) by lia.
      rewrite M in E. apply (filter_full_length _ _ _ E) in I.
      apply setHas_In in N. now rewrite N in I.
    + intros None. rewrite M, filter_all; [reflexivity|].
      intros k I. apply negb_true_iff.
      destruct (I18n.setHas keysX k) eqn:H; [|reflexivity].
      apply setHas_In in H. now destruct (None k I).
Qed.

Lemma translationProgress_extremes_witness :
  fst (I18n.resourceKeys
         (Examples.loaded Examples.defaults [("en", Examples.en); ("fr", Examples.fr)])
         "en") <> []
  /\ (fst (I18n.translationProgress
             (Examples.loaded Examples.defaults [("en", Examples.en); ("fr", Examples.fr)])
             "fr" (Some "en")) == 0)%Q.
Proof.
  assert (N : fst (I18n.resourceKeys
                     (Examples.loaded Examples.defaults
                        [("en", Examples.en); ("fr", Examples.fr)]) "en") <> [])
    by discriminate.
  split; [exact N|].
  apply (proj2 (translationProgress_extremes _ "fr" "en" N)).
  intros k I.
  change (In k ["greeting"; "menu"; "cart.title"]) in I.
  change (~ In k ["menu.title"]).
  simpl in *. intuition (subst; discriminate).
Defined.

(* ================================================================= *)
(** ** Loading and resetting *)






(* ================================================================= *)
(** ** Lookups in a context *)









Lemma isEmpty_map (f : ascii -> ascii) (s : string) :
  JsString.isEmpty (JsString.map f s) = JsString.isEmpty s.
Proof. now destruct s. Qed.

Lemma toLowerCase_idem (s : string) :
  JsString.toLowerCase (JsString.toLowerCase s) = JsString.toLowerCase s.
Proof.
  unfold JsString.toLowerCase. rewrite JsStringFacts.map_map.
  apply JsStringFacts.map_ext, JsStringFacts.lowerChar_idem.
Qed.

Lemma new_context_locale_holds :
  forall (repo : Repository) (cfg : I18nConfig) (requested : option string)
         (data : option TemplateData),
    JsString.isEmpty (defaultLanguage cfg) = false ->
    let ctx := I18nContext.new repo cfg requested data in
    let code := JsString.toLowerCase (I18nContext.orElse requested (defaultLanguage cfg)) in
    let effective :=
      if Obj.has code repo || Obj.has (JsString.firstSegment "-" code) repo
      then code else defaultLanguage cfg in
    I18nContext.languageCode ctx = Some effective
    /\ I18nContext.shortLanguageCode ctx = Some (JsString.firstSegment "-" effective)
    /\ I18nContext.repository ctx = repo
    /\ I18nContext.config ctx = cfg
    /\ (Obj.has (defaultLanguage cfg) repo = true ->
        Obj.has effective repo || Obj.has (JsString.firstSegment "-" effective) repo = true).
Proof.
  intros repo cfg requested data NonEmpty ctx code effective.
  assert (Asked : JsString.isEmpty (I18nContext.orElse requested (defaultLanguage cfg))
                  = false).
  { unfold I18nContext.orElse. destruct requested as [s|]; [|exact NonEmpty].
    destruct (JsString.isEmpty s) eqn:E; [exact NonEmpty | exact E]. }
  subst ctx. unfold I18nContext.new, I18nContext.locale. rewrite Asked.
  cbn [I18nContext.repository I18nContext.config]. fold code.
  subst effective.
  destruct (Obj.has code repo) eqn:H1;
    destruct (Obj.has (JsString.firstSegment "-" code) repo) eqn:H2;
    cbn [negb andb orb snd I18nContext.setLocale I18nContext.languageCode
         I18nContext.shortLanguageCode I18nContext.repository I18nContext.config];
    repeat split; try (intros D; rewrite ?H1, ?H2, ?D; reflexivity).
Qed.



(** X22. Resolution is stable when the default language is written in
    lower case: the effective locale a context reports, given back to
    [locale] or to a new context over the same repository, resolves to
    itself. Reading the locale, with no argument or with the empty string,
    changes nothing. *)
Theorem locale_stable :
  forall (self : I18nContext.state) (tag : string),
    JsString.isEmpty tag = false ->
    JsString.isEmpty (defaultLanguage (I18nContext.config self)) = false ->
    JsString.toLowerCase (defaultLanguage (I18nContext.config self))
    = defaultLanguage (I18nContext.config self) ->
    let resolved := snd (I18nContext.locale self (Some tag)) in
    exists effective,
      fst (I18nContext.locale resolved None) = Some effective
      /\ snd (I18nContext.locale resolved None) = resolved
      /\ I18nContext.locale resolved (Some "") = I18nContext.locale resolved None
      /\ snd (I18nContext.locale resolved (Some effective)) = resolved
      /\ I18nContext.languageCode
           (I18nContext.new (I18nContext.repository self) (I18nContext.config self)
                            (Some effective) None) = Some effective.
Proof.
  intros self tag NonEmpty DefaultNonEmpty Lower resolved.
  set (repo := I18nContext.repository self).
  set (fallback := defaultLanguage (I18nContext.config self)) in *.
  set (code := JsString.toLowerCase tag).
  assert (CodeNonEmpty : JsString.isEmpty code = false)
    by (subst code; unfold JsString.toLowerCase; now rewrite isEmpty_map).
  assert (Resolved :
    resolved = I18nContext.setLocale self
                 (if Obj.has code repo || Obj.has (JsString.firstSegment "-" code) repo
                  then code else fallback)
                 (JsString.firstSegment "-"
                    (if Obj.has code repo || Obj.has (JsString.firstSegment "-" code) repo
                     then code else fallback))).
  { subst resolved. unfold I18nContext.locale. rewrite NonEmpty. fold code repo fallback.
    destruct (Obj.has code repo), (Obj.has (JsString.firstSegment "-" code) repo);
      reflexivity. }
  set (effective := if Obj.has code repo || Obj.has (JsString.firstSegment "-" code) repo
                    then code else fallback) in *.
  assert (EffNonEmpty : JsString.isEmpty effective = false)
    by (subst effective; destruct (_ || _); assumption).
  assert (EffLower : JsString.toLowerCase effective = effective).
  { subst effective. destruct (_ || _); [apply toLowerCase_idem | exact Lower]. }
  assert (Fix : (if Obj.has effective repo
                    || Obj.has (JsString.firstSegment "-" effective) repo
                 then effective else fallback) = effective).
  { subst effective.
    destruct (Obj.has code repo || Obj.has (JsString.firstSegment "-" code) repo) eqn:H.
    - now rewrite H.
    - now destruct (Obj.has fallback repo || _). }
  exists effective. rewrite Resolved. repeat split.
  - unfold I18nContext.locale. rewrite EffNonEmpty, EffLower.
    cbn [I18nContext.repository I18nContext.config I18nContext.setLocale].
    fold repo fallback.
    destruct (Obj.has effective repo) eqn:H1;
      destruct (Obj.has (JsString.firstSegment "-" effective) repo) eqn:H2;
      cbn [negb andb orb snd] in *; unfold I18nContext.setLocale;
      cbn [I18nContext.repository I18nContext.config I18nContext.contextData];
      try reflexivity.
    now rewrite Fix.
  - pose proof (new_context_locale_holds repo (I18nContext.config self) (Some effective) None
                  DefaultNonEmpty) as N.
    cbv zeta in N. destruct N as [N _]. rewrite N.
    unfold I18nContext.orElse. rewrite EffNonEmpty, EffLower. fold fallback.
    now rewrite Fix.
Qed.

Lemma locale_stable_witness :
  JsString.isEmpty "DE" = false
  /\ JsString.isEmpty
       (defaultLanguage
          (I18nContext.config
             (I18n.createContext (Examples.loaded Examples.defaults [("en", Examples.en)])
                                 None None))) = false
  /\ exists effective,
       fst (I18nContext.locale
              (snd (I18nContext.locale
                      (I18n.createContext
                         (Examples.loaded Examples.defaults [("en", Examples.en)]) None None)
                      (Some "DE"))) None) = Some effective.
Proof.
  split; [reflexivity|]. split; [reflexivity|].
  destruct (locale_stable
              (I18n.createContext (Examples.loaded Examples.defaults [("en", Examples.en)])
                                  None None) "DE" eq_refl eq_refl eq_refl)
    as [effective [H _]].
  now exists effective.
Defined.

(* ================================================================= *)
(** ** From loading to rendering *)





(* ================================================================= *)
(** ** The keys listed and the keys that render *)






Lemma templateTree_object (props : list (string * value)) :
  templateTree (VObj props) = true ->
  NoDup (Obj.keys props)
  /\ forall k v, In (k, v) props ->
                 plainKey k = true /\ templateTree v = true.
Proof.
  cbn [templateTree]. rewrite andb_true_iff, forallb_forall. intros [D All].
  split; [now apply distinct_NoDup|].
  intros k v I. specialize (All _ I). now apply andb_true_iff in All.
Qed.





Lemma forallb_set_pair (A : Type) (p : string * A -> bool) (o : Obj.t A) (k : string)
    (v : A) :
  forallb p o = true -> p (k, v) = true -> forallb p (Obj.set k v o) = true.
Proof.
  intros Ho Hv. induction o as [|[k' v'] rest IH]; simpl in *.
  - now rewrite Hv.
  - apply andb_true_iff in Ho as [H1 H2].
    destruct (String.eqb k k') eqn:E; simpl.
    + apply String.eqb_eq in E. subst k'. now rewrite Hv, H2.
    + now rewrite H1, IH.
Qed.

Lemma templateTree_set (o : ResourceTree) (k : string) (v : value) :
  templateTree (VObj o) = true -> plainKey k = true -> templateTree v = true ->
  templateTree (VObj (Obj.set k v o)) = true.
Proof.
  cbn [templateTree]. rewrite !andb_true_iff. intros [D All] Pk Tv. split.
  - now apply (distinct_keys_set _ o k v).
  - apply forallb_set_pair; [exact All | cbn [fst snd]; now rewrite Pk, Tv].
Qed.

Lemma templateTree_mergedValue (bv : value) :
  templateTree bv = true ->
  forall x : option value,
    (forall v, x = Some v -> templateTree v = true) ->
    templateTree (mergedValue x bv) = true.
Proof.
  induction bv as [| | | | | | |props IH] using value_nested_ind;
    intros Tb x Tx; try discriminate Tb; [now destruct x as [[]|]|].
  destruct x as [[| | | | | | |a]|]; try exact Tb.
  cbn [mergedValue]. rewrite deepMerge_loop.
  pose proof (Tx _ eq_refl) as Ta. clear Tx.
  apply templateTree_object in Tb as [_ All].
  revert a Ta. induction props as [|[k bv] rest IHrest]; intros a Ta; simpl; [exact Ta|].
  inversion IH as [|? ? Hbv Hrest]; subst.
  apply IHrest; [exact Hrest | intros k' v' I; apply All; now right |].
  change (mergeStep a (k, bv)) with (Obj.set k (mergedValue (Obj.get k a) bv) a).
  destruct (All k bv (or_introl eq_refl)) as [Pk Tbv].
  apply templateTree_set; [exact Ta | exact Pk |].
  apply Hbv; [exact Tbv|].
  intros v G. apply In_get in G.
  apply templateTree_object in Ta as [_ AllA]. now apply (AllA k v).
Qed.

Lemma templateTree_compiled (v : value) :
  stringDocument v = true -> templateTree (compileTemplates v) = true.
Proof.
  induction v as [| | | |s| | |props IH] using value_nested_ind;
    intros S; try discriminate S.
  - simpl. now destruct (JsString.includes _ s).
  - cbn [stringDocument] in S. apply andb_true_iff in S as [D All].
    rewrite compileTemplates_object. unfold compiledProps.
    rewrite (fold_set_rebuild _ _ compileTemplates props [])
      by (simpl; now apply distinct_NoDup).
    cbn [app templateTree]. rewrite map_map. cbn [fst].
    change (List.map (fun x : string * value => fst x) props) with (List.map fst props).
    rewrite D. cbn [andb]. rewrite forallb_mapped. cbn [fst snd].
    rewrite forallb_forall in *. rewrite Forall_forall in IH.
    intros kv I. specialize (All kv I). apply andb_true_iff in All as [P Sv].
    now rewrite P, (IH kv I Sv).
Qed.

(** X25. Documents made of objects and strings keep a repository of
    template trees. Compiling such a document, its keys distinct,
    non-empty and without dots, gives a tree of templates; the deep merge
    of two trees of templates is one; so loading such a document into a
    locale whose tree is a tree of templates leaves it one. *)
Theorem string_documents_keep_template_trees :
  forall (self : I18n.state) (languageCode : string) (raw : list (string * value))
         (a b : ResourceTree),
    (stringDocument (VObj raw) = true ->
     templateTree (compileTemplates (VObj raw)) = true)
    /\ (templateTree (VObj a) = true -> templateTree (VObj b) = true ->
        templateTree (VObj (deepMerge a b)) = true)
    /\ (stringDocument (VObj raw) = true ->
        templateTree (VObj (treeOf self (full (normalizeLocale languageCode)))) = true ->
        templateTree
          (VObj (treeOf (snd (I18n.loadLocale self languageCode (VObj raw)))
                        (full (normalizeLocale languageCode)))) = true).
Proof.
  intros self languageCode raw a b.
  assert (Merge : forall a b, templateTree (VObj a) = true -> templateTree (VObj b) = true ->
                              templateTree (VObj (deepMerge a b)) = true).
  { intros a' b' Ta Tb.
    apply (templateTree_mergedValue (VObj b') Tb (Some (VObj a'))). now intros v [= <-]. }
  split; [apply templateTree_compiled|]. split; [apply Merge|].
  intros S T. rewrite loadLocale_object. cbv zeta. cbn [snd].
  unfold treeOf at 1. rewrite repository_invalidate.
  cbn [I18n.repository I18n.withRepository]. rewrite ObjFacts.get_set_same.
  apply Merge; [exact T|].
  rewrite <- compileTemplates_object. now apply templateTree_compiled.
Qed.

Lemma string_documents_keep_template_trees_witness :
  stringDocument (VObj [("menu", VObj [("title", VStr "Titre")])]) = true
  /\ templateTree (compileTemplates (VObj [("menu", VObj [("title", VStr "Titre")])])) = true.
Proof.
  split; [reflexivity|].
  exact (proj1 (string_documents_keep_template_trees
                  (I18n.new Examples.defaults) "fr"
                  [("menu", VObj [("title", VStr "Titre")])] [] []) eq_refl).
Defined.

(* ================================================================= *)
(** ** Escaping *)

Lemma escapeBackticks_head (s : string) :
  match JsString.escapeBackticks s with
  | String c _ => c <> "`"%char
  | EmptyString => s = EmptyString
  end.
Proof.
  destruct s as [|c r]; simpl; [reflexivity|].
  destruct (Ascii.eqb c "`") eqn:E; [discriminate|].
  now apply Ascii.eqb_neq.
Qed.

Lemma escapeBackticks_injective (s1 s2 : string) :
  JsString.escapeBackticks s1 = JsString.escapeBackticks s2 -> s1 = s2.
Proof.
  revert s2. induction s1 as [|c1 r1 IH]; intros s2 E.
  - pose proof (escapeBackticks_head s2) as H. rewrite <- E in H. now symmetry.
  - destruct s2 as [|c2 r2].
    + pose proof (escapeBackticks_head (String c1 r1)) as H. rewrite E in H. exact H.
    + simpl in E.
      destruct (Ascii.eqb c1 "`") eqn:E1; destruct (Ascii.eqb c2 "`") eqn:E2.
      * apply Ascii.eqb_eq in E1, E2. subst. injection E as E. now rewrite (IH _ E).
      * injection E as _ E. pose proof (escapeBackticks_head r2) as H.
        rewrite <- E in H. congruence.
      * injection E as _ E. pose proof (escapeBackticks_head r1) as H.
        rewrite E in H. congruence.
      * injection E as -> E. now rewrite (IH _ E).
Qed.

Lemma append_cancel_last (a b : string) (c : ascii) :
  (a ++ String c "" = b ++ String c "")%string -> a = b.
Proof.
  revert b. induction a as [|x a IH]; intros [|y b]; simpl; intros E.
  - reflexivity.
  - injection E as _ E. now destruct b.
  - injection E as _ E. now destruct a.
  - injection E as -> E. now rewrite (IH _ E).
Qed.

Lemma includes_one (q c : ascii) (r : string) :
  JsString.includes (String q "") (String c r)
  = if Ascii.eqb c q then true else JsString.includes (String q "") r.
Proof.
  cbn [JsString.includes]. simpl String.prefix.
  destruct (ascii_dec q c) as [->|N].
  - rewrite Ascii.eqb_refl. now destruct r.
  - assert (E : Ascii.eqb c q = false) by (apply Ascii.eqb_neq; congruence).
    now rewrite E.
Qed.

Lemma escapeBackticks_plain (s : string) :
  JsString.includes "`" s = false -> JsString.escapeBackticks s = s.
Proof.
  induction s as [|c r IH]; [reflexivity|].
  rewrite (includes_one "`" c r). cbn [JsString.escapeBackticks].
  destruct (Ascii.eqb c "`"); [discriminate|].
  intros I. now rewrite (IH I).
Qed.

(** X26. [escape] loses nothing: two templates with the same script are the
    same template. A template without a backtick is put between two
    backticks as it is. *)
Theorem escape_injective :
  forall s1 s2 : string,
    (Compile.escape s1 = Compile.escape s2 -> s1 = s2)
    /\ (JsString.includes "`" s1 = false ->
        Compile.escape s1 = ("`" ++ s1 ++ "`")%string).
Proof.
  intros s1 s2. unfold Compile.escape. split.
  - simpl. intros [= E]. apply append_cancel_last in E.
    now apply escapeBackticks_injective.
  - intros P. now rewrite (escapeBackticks_plain s1 P).
Qed.

Lemma escape_injective_witness :
  JsString.includes "`" "Hello, ${name}" = false
  /\ Compile.escape "Hello, ${name}" = "`Hello, ${name}`".
Proof.
  split; [reflexivity|].
  exact (proj2 (escape_injective "Hello, ${name}" "") eq_refl).
Defined.
